(** * useAgentSession: the agent session client of the dashboard

    A shallow embedding of [src/frontend/src/hooks/useAgentSession.js]:
    the React hook that owns the WebSocket to the AI engine, turns the
    stream of server frames into the chat, terminal, file and status
    projections, reconnects after an abnormal close, and fetches file
    contents on the side.

    Modelling choices.
    - JavaScript values are the inductive [Value]: what [JSON.parse]
      yields, plus [undefined].  Numbers are integers ([Z]); strings are
      Rocq strings, one character per code unit.
    - React state ([useState]) and refs ([useRef]) are the fields of the
      record [World], next to the browser objects the hook talks to:
      the sockets it created, the pending [setTimeout] callbacks, the
      live [setInterval] ids, the in-flight [fetch] calls.  A state
      updater is applied when it is queued.
    - Handlers that cannot throw are functions [World -> World];
      [handleEvent] and the helpers that can raise a [TypeError] live in
      the state-and-exception monad [M].  A [throw] keeps the state
      reached so far: the updates queued before it are not rolled back.
    - What the engine supplies ([JSON.parse], [JSON.stringify],
      [Date.now], the endpoint constants) is the interface [Runtime].
    - The browser is the event loop [step]: one user call, socket
      event, timer or settled fetch at a time, each handled to
      completion.  Frames are text frames; the urls built from
      [WS_BASE] and [API_BASE] are well formed, so that
      [new WebSocket] and [new URL] do not throw. *)

From Stdlib Require Import String Ascii List ZArith Bool Lia DecimalString.
From Stdlib Require DecimalZ DecimalPos.
From stdpp Require Import base list strings.
Import ListNotations.
Open Scope string_scope.
Open Scope list_scope.

(** ** JavaScript values *)

#[local] Unset Elimination Schemes.
Inductive Value : Type :=
| VUndefined
| VNull
| VBool (b : bool)
| VNum (n : Z)
| VStr (s : string)
| VArr (elems : list Value)
| VObj (props : list (string * Value)).
#[local] Set Elimination Schemes.

(** Thrown values.  [TypeError] is raised by the engine, [Error] by
    [throw new Error(message)]. *)
Inductive Exn : Type :=
| TypeError
| Error (message : string).

Inductive Res (A : Type) : Type :=
| Ok (a : A)
| Throw (e : Exn).
Arguments Ok {A} a.
Arguments Throw {A} e.

Definition res_bind {A B} (r : Res A) (k : A -> Res B) : Res B :=
  match r with
  | Ok a => k a
  | Throw e => Throw e
  end.

(** [x || y] picks [x] when it is truthy. *)
Definition truthy (v : Value) : bool :=
  match v with
  | VUndefined | VNull => false
  | VBool b => b
  | VNum n => negb (n =? 0)%Z
  | VStr s => negb (s =? "")
  | VArr _ | VObj _ => true
  end.

Definition or_else (x y : Value) : Value := if truthy x then x else y.

Definition isArray (v : Value) : bool :=
  match v with VArr _ => true | _ => false end.

Definition nullish (v : Value) : bool :=
  match v with VUndefined | VNull => true | _ => false end.

(** Own property of an object built by [JSON.parse]. *)
Fixpoint own (props : list (string * Value)) (name : string) : Value :=
  match props with
  | [] => VUndefined
  | (k, v) :: rest => if k =? name then v else own rest name
  end.

Definition has_own (props : list (string * Value)) (name : string) : bool :=
  existsb (fun kv => fst kv =? name) props.

(** [v.name] for the data names the hook reads ([type], [content],
    [children], [length], ...): none of them is on a prototype, so the
    lookup sees own properties only; arrays and strings own [length]. *)
Definition get (v : Value) (name : string) : Res Value :=
  match v with
  | VUndefined | VNull => Throw TypeError
  | VBool _ | VNum _ => Ok VUndefined
  | VStr s =>
      Ok (if name =? "length" then VNum (Z.of_nat (String.length s))
          else VUndefined)
  | VArr l =>
      Ok (if name =? "length" then VNum (Z.of_nat (List.length l))
          else VUndefined)
  | VObj props => Ok (own props name)
  end.

(** [v?.name] *)
Definition get_opt (v : Value) (name : string) : Res Value :=
  if nullish v then Ok VUndefined else get v name.

(** [x === 'literal'] *)
Definition is_str (v : Value) (lit : string) : bool :=
  match v with VStr s => s =? lit | _ => false end.

(** Decimal text of an integer, as in a template literal. *)
Definition dec (n : Z) : string := NilZero.string_of_int (Z.to_int n).

(** [ToString]: the conversion a template literal and [join] apply.  An
    object from [JSON.parse] prints as [[object Object]] unless it owns
    a (necessarily non-callable) [toString], in which case the
    conversion raises a [TypeError]. *)
Fixpoint toString (v : Value) : Res string :=
  match v with
  | VUndefined => Ok "undefined"
  | VNull => Ok "null"
  | VBool true => Ok "true"
  | VBool false => Ok "false"
  | VNum n => Ok (dec n)
  | VStr s => Ok s
  | VArr l =>
      (fix join (l : list Value) : Res string :=
         match l with
         | [] => Ok ""
         | x :: rest =>
             res_bind (if nullish x then Ok "" else toString x) (fun s =>
             match rest with
             | [] => Ok s
             | _ => res_bind (join rest) (fun r => Ok (s +:+ "," +:+ r))
             end)
         end) l
  | VObj props =>
      if has_own props "toString" then Throw TypeError
      else Ok "[object Object]"
  end.

(** [array.join(sep)] *)
Fixpoint join (sep : string) (l : list Value) : Res string :=
  match l with
  | [] => Ok ""
  | x :: rest =>
      res_bind (if nullish x then Ok "" else toString x) (fun s =>
      match rest with
      | [] => Ok s
      | _ => res_bind (join sep rest) (fun r => Ok (s +:+ sep +:+ r))
      end)
  end.

(** [SameValueZero] against a value that was just parsed: primitives
    compare by content, a fresh array or object is identical to nothing
    stored earlier. *)
Definition sameValueZero (x fresh : Value) : bool :=
  match x, fresh with
  | VUndefined, VUndefined => true
  | VNull, VNull => true
  | VBool a, VBool b => Bool.eqb a b
  | VNum a, VNum b => (a =? b)%Z
  | VStr a, VStr b => a =? b
  | _, _ => false
  end.

(** [array.includes(x)] *)
Definition includes (l : list Value) (x : Value) : bool :=
  existsb (fun y => sameValueZero y x) l.

(** [text.includes(part)] *)
Definition str_includes (text part : string) : bool :=
  match index 0 part text with Some _ => true | None => false end.

(** [eventType.includes(part)]: a string searches its text, an array its
    elements; any other value has no such method and the call raises. *)
Definition call_includes (v : Value) (part : string) : Res bool :=
  match v with
  | VStr s => Ok (str_includes s part)
  | VArr l => Ok (includes l (VStr part))
  | _ => Throw TypeError
  end.

(** [v?.join(sep)] *)
Definition call_join_opt (v : Value) (sep : string) : Res Value :=
  match v with
  | VUndefined | VNull => Ok VUndefined
  | VArr l => res_bind (join sep l) (fun s => Ok (VStr s))
  | _ => Throw TypeError
  end.

(** [text.trim()].  White space and line terminators, as
    [String.prototype.trim] sees them among the code units below 256:
    tab, line feed, vertical tab, form feed, carriage return, space,
    no-break space. *)
Definition is_space (c : ascii) : bool :=
  let n := nat_of_ascii c in
  ((9 <=? n)%nat && (n <=? 13)%nat) || (n =? 32)%nat || (n =? 160)%nat.

Fixpoint trimStart (l : list ascii) : list ascii :=
  match l with
  | [] => []
  | c :: rest => if is_space c then trimStart rest else l
  end.

Definition trim (text : string) : string :=
  string_of_list_ascii
    (rev (trimStart (rev (trimStart (list_ascii_of_string text))))).

(** ** _countFiles

    [for (const node of tree)] walks the elements of an array or the
    characters of a string and raises on anything else;
    [node.children] raises on [null].  The search for the [children]
    property is written inside the fixpoint so that the recursive call
    is on a part of [tree]; [_countFiles_node] below states the loop
    body with [get]. *)
Definition children_length (children : Value) : Value :=
  match get_opt children "length" with
  | Ok len => len
  | Throw _ => VUndefined
  end.

Fixpoint _countFiles (tree : Value) : Res nat :=
  match tree with
  | VArr nodes =>
      (fix each (nodes : list Value) (count : nat) {struct nodes} : Res nat :=
         match nodes with
         | [] => Ok count
         | node :: rest =>
             let count := count + 1 in
             match node with
             | VUndefined | VNull => Throw TypeError
             | VObj props =>
                 (fix children_of (props : list (string * Value)) : Res nat :=
                    match props with
                    | [] => each rest count
                    | (k, children) :: more =>
                        if k =? "children" then
                          if truthy (children_length children) then
                            res_bind (_countFiles children) (fun n =>
                            each rest (count + n))
                          else each rest count
                        else children_of more
                    end) props
             | VBool _ | VNum _ | VStr _ | VArr _ => each rest count
             end
         end) nodes 0
  | VStr s => Ok (String.length s)
  | _ => Throw TypeError
  end.

(** ** What the engine supplies *)

Class Runtime : Type := {
  (** [JSON.parse]: [None] when it throws *)
  JSON_parse : string -> option Value;
  JSON_stringify : Value -> string;
  (** [Date.now()] at its k-th call *)
  Date_now : nat -> Z;
  (** [NEXT_PUBLIC_AGENT_WS_URL], or its default *)
  WS_BASE : string;
  (** the HTTP base derived from [WS_BASE] *)
  API_BASE : string;
  (** [err.message] of an engine [TypeError] *)
  TypeError_message : string
}.

Definition HEARTBEAT_INTERVAL_MS : Z := 25000.
Definition MAX_RECONNECTS : nat := 3.

(** ** The data model *)

Inductive Status : Type := st_idle | st_connecting | st_connected | st_error.

Inductive Kind : Type := user | agent | system.

Module ChatMessage.
Record t : Type := { id : string; type : Kind; content : Value; ts : Z }.
End ChatMessage.

Module LogEntry.
Record t : Type := { id : string; content : Value; ts : Z }.
End LogEntry.

Module ActiveFile.
Record t : Type := { path : string; content : Value; loading : bool }.
End ActiveFile.

(** [startSession(task)]: [task] may be left out. *)
Definition Task : Type := option string.

Definition task_truthy (t : Task) : bool :=
  match t with Some s => negb (s =? "") | None => false end.

Definition task_or_empty (t : Task) : string :=
  match t with Some s => s | None => "" end.

Inductive ReadyState : Type := CONNECTING | OPEN | CLOSING | CLOSED.

Module WebSocket.
(** A socket the hook created: its url, its state, the frames passed
    to [send], the arguments of [close], and the [initialTask] its
    handlers closed over. *)
Record t : Type := {
  url : string;
  readyState : ReadyState;
  sent : list string;
  closeCall : option (Z * string);
  initialTask : Task
}.
End WebSocket.

(** A pending [setTimeout(() => connect(initialTask), delay)]. *)
Record Timeout : Type := { delay : Z; reconnectTask : Task }.

(** An in-flight [fetch] of [/api/files/read]. *)
Record Fetch : Type := { endpoint : string; session_id : string; fpath : string }.

(** How a fetch settles: the promise rejects, or a response arrives with
    its status and what [res.json()] gives (a value, or a rejection
    with its message). *)
Inductive FetchOutcome : Type :=
| Rejected (message : string)
| Response (status : Z) (body : Value + string).

Definition res_ok (status : Z) : bool := (200 <=? status)%Z && (status <=? 299)%Z.

Record State : Type := {
  status : Status;
  messages : list ChatMessage.t;
  terminalLogs : list LogEntry.t;
  files : list Value;
  fileTree : list Value;
  activeFile : option ActiveFile.t;
  error : Value
}.

Record Refs : Type := {
  wsRef : option nat;
  heartbeatRef : option nat;
  reconnectCount : nat;
  idCounter : nat;
  sessionIdRef : Value
}.

Record Browser : Type := {
  sockets : list WebSocket.t;
  timeouts : list Timeout;
  intervals : list (nat * Z);
  nextInterval : nat;
  fetches : list Fetch;
  clock : nat;
  (** [sessionStorage.getItem('lucid_model_provider')] *)
  storedModelProvider : option string
}.

Record World : Type := {
  state : State;
  refs : Refs;
  browser : Browser;
  (** the hook's arguments *)
  projectId : string;
  token : string
}.

Definition initial_state : State :=
  {| status := st_idle; messages := []; terminalLogs := []; files := [];
     fileTree := []; activeFile := None; error := VNull |}.

Definition initial_refs : Refs :=
  {| wsRef := None; heartbeatRef := None; reconnectCount := 0;
     idCounter := 0; sessionIdRef := VNull |}.

Definition initial_world (projectId token : string)
    (stored : option string) : World :=
  {| state := initial_state; refs := initial_refs;
     browser := {| sockets := []; timeouts := []; intervals := [];
                   nextInterval := 1; fetches := []; clock := 0;
                   storedModelProvider := stored |};
     projectId := projectId; token := token |}.

(** ** Field updates *)

Definition with_state (f : State -> State) (w : World) : World :=
  {| state := f (state w); refs := refs w; browser := browser w;
     projectId := projectId w; token := token w |}.

Definition with_refs (f : Refs -> Refs) (w : World) : World :=
  {| state := state w; refs := f (refs w); browser := browser w;
     projectId := projectId w; token := token w |}.

Definition with_browser (f : Browser -> Browser) (w : World) : World :=
  {| state := state w; refs := refs w; browser := f (browser w);
     projectId := projectId w; token := token w |}.

Definition setStatus (v : Status) : World -> World :=
  with_state (fun s =>
    {| status := v; messages := messages s; terminalLogs := terminalLogs s;
       files := files s; fileTree := fileTree s; activeFile := activeFile s;
       error := error s |}).

Definition setMessages (f : list ChatMessage.t -> list ChatMessage.t)
    : World -> World :=
  with_state (fun s =>
    {| status := status s; messages := f (messages s);
       terminalLogs := terminalLogs s; files := files s;
       fileTree := fileTree s; activeFile := activeFile s;
       error := error s |}).

Definition setTerminalLogs (f : list LogEntry.t -> list LogEntry.t)
    : World -> World :=
  with_state (fun s =>
    {| status := status s; messages := messages s;
       terminalLogs := f (terminalLogs s); files := files s;
       fileTree := fileTree s; activeFile := activeFile s;
       error := error s |}).

Definition setFiles (f : list Value -> list Value) : World -> World :=
  with_state (fun s =>
    {| status := status s; messages := messages s;
       terminalLogs := terminalLogs s; files := f (files s);
       fileTree := fileTree s; activeFile := activeFile s;
       error := error s |}).

Definition setFileTree (v : list Value) : World -> World :=
  with_state (fun s =>
    {| status := status s; messages := messages s;
       terminalLogs := terminalLogs s; files := files s;
       fileTree := v; activeFile := activeFile s; error := error s |}).

Definition setActiveFile (f : option ActiveFile.t -> option ActiveFile.t)
    : World -> World :=
  with_state (fun s =>
    {| status := status s; messages := messages s;
       terminalLogs := terminalLogs s; files := files s;
       fileTree := fileTree s; activeFile := f (activeFile s);
       error := error s |}).

Definition setError (v : Value) : World -> World :=
  with_state (fun s =>
    {| status := status s; messages := messages s;
       terminalLogs := terminalLogs s; files := files s;
       fileTree := fileTree s; activeFile := activeFile s; error := v |}).

Definition set_wsRef (v : option nat) : World -> World :=
  with_refs (fun r =>
    {| wsRef := v; heartbeatRef := heartbeatRef r;
       reconnectCount := reconnectCount r; idCounter := idCounter r;
       sessionIdRef := sessionIdRef r |}).

Definition set_heartbeatRef (v : option nat) : World -> World :=
  with_refs (fun r =>
    {| wsRef := wsRef r; heartbeatRef := v;
       reconnectCount := reconnectCount r; idCounter := idCounter r;
       sessionIdRef := sessionIdRef r |}).

Definition set_reconnectCount (v : nat) : World -> World :=
  with_refs (fun r =>
    {| wsRef := wsRef r; heartbeatRef := heartbeatRef r;
       reconnectCount := v; idCounter := idCounter r;
       sessionIdRef := sessionIdRef r |}).

Definition set_idCounter (v : nat) : World -> World :=
  with_refs (fun r =>
    {| wsRef := wsRef r; heartbeatRef := heartbeatRef r;
       reconnectCount := reconnectCount r; idCounter := v;
       sessionIdRef := sessionIdRef r |}).

Definition set_sessionIdRef (v : Value) : World -> World :=
  with_refs (fun r =>
    {| wsRef := wsRef r; heartbeatRef := heartbeatRef r;
       reconnectCount := reconnectCount r; idCounter := idCounter r;
       sessionIdRef := v |}).

Definition with_sockets (f : list WebSocket.t -> list WebSocket.t)
    : World -> World :=
  with_browser (fun b =>
    {| sockets := f (sockets b); timeouts := timeouts b;
       intervals := intervals b; nextInterval := nextInterval b;
       fetches := fetches b; clock := clock b;
       storedModelProvider := storedModelProvider b |}).

Definition with_timeouts (f : list Timeout -> list Timeout)
    : World -> World :=
  with_browser (fun b =>
    {| sockets := sockets b; timeouts := f (timeouts b);
       intervals := intervals b; nextInterval := nextInterval b;
       fetches := fetches b; clock := clock b;
       storedModelProvider := storedModelProvider b |}).

Definition with_intervals (f : list (nat * Z) -> list (nat * Z))
    : World -> World :=
  with_browser (fun b =>
    {| sockets := sockets b; timeouts := timeouts b;
       intervals := f (intervals b); nextInterval := nextInterval b;
       fetches := fetches b; clock := clock b;
       storedModelProvider := storedModelProvider b |}).

Definition set_nextInterval (v : nat) : World -> World :=
  with_browser (fun b =>
    {| sockets := sockets b; timeouts := timeouts b;
       intervals := intervals b; nextInterval := v;
       fetches := fetches b; clock := clock b;
       storedModelProvider := storedModelProvider b |}).

Definition with_fetches (f : list Fetch -> list Fetch) : World -> World :=
  with_browser (fun b =>
    {| sockets := sockets b; timeouts := timeouts b;
       intervals := intervals b; nextInterval := nextInterval b;
       fetches := f (fetches b); clock := clock b;
       storedModelProvider := storedModelProvider b |}).

Definition set_clock (v : nat) : World -> World :=
  with_browser (fun b =>
    {| sockets := sockets b; timeouts := timeouts b;
       intervals := intervals b; nextInterval := nextInterval b;
       fetches := fetches b; clock := v;
       storedModelProvider := storedModelProvider b |}).

Definition with_socket (i : nat) (f : WebSocket.t -> WebSocket.t)
    : World -> World :=
  with_sockets (fun l =>
    match l !! i with
    | Some ws => <[i := f ws]> l
    | None => l
    end).

Definition set_readyState (r : ReadyState) (ws : WebSocket.t) : WebSocket.t :=
  {| WebSocket.url := WebSocket.url ws; WebSocket.readyState := r;
     WebSocket.sent := WebSocket.sent ws;
     WebSocket.closeCall := WebSocket.closeCall ws;
     WebSocket.initialTask := WebSocket.initialTask ws |}.

(** [readyState] of the socket a ref or a handler holds. *)
Definition readyState_of (w : World) (i : nat) : option ReadyState :=
  WebSocket.readyState <$> sockets (browser w) !! i.

Definition ready_is (w : World) (i : nat) (r : ReadyState) : bool :=
  match readyState_of w i, r with
  | Some CONNECTING, CONNECTING | Some OPEN, OPEN
  | Some CLOSING, CLOSING | Some CLOSED, CLOSED => true
  | _, _ => false
  end.

(** ** The state-and-exception monad of the handlers *)

Definition M (A : Type) : Type := World -> Res A * World.

Definition ret {A} (a : A) : M A := fun w => (Ok a, w).

Definition bind {A B} (m : M A) (k : A -> M B) : M B :=
  fun w =>
    match m w with
    | (Ok a, w') => k a w'
    | (Throw e, w') => (Throw e, w')
    end.

(** A computation on values alone. *)
Definition lift {A} (r : Res A) : M A := fun w => (r, w).

(** A state update. *)
Definition upd (f : World -> World) : M unit := fun w => (Ok tt, f w).

Definition when (b : bool) (m : M unit) : M unit := if b then m else ret tt.

(** [try { body } catch (err) { handler }] *)
Definition try_catch (body : M unit) (handler : Exn -> M unit) : M unit :=
  fun w =>
    match body w with
    | (Ok a, w') => (Ok a, w')
    | (Throw e, w') => handler e w'
    end.

Notation "x <- m ;; k" := (bind m (fun x => k))
  (at level 100, m at next level, right associativity).
Notation "m ;;; k" := (bind m (fun _ => k))
  (at level 100, right associativity).

Section Hook.
Context {rt : Runtime}.

(** *** Helpers *)

Definition now (w : World) : Z * World :=
  (Date_now (clock (browser w)), set_clock (S (clock (browser w))) w).

(** [`evt_${Date.now()}_${++idCounter.current}`] *)
Definition uid (w : World) : string * World :=
  let (t, w) := now w in
  let n := S (idCounter (refs w)) in
  ("evt_" +:+ dec t +:+ "_" +:+ dec (Z.of_nat n), set_idCounter n w).

Definition pushMessage (type : Kind) (content : Value) (w : World) : World :=
  let (id, w) := uid w in
  let (ts, w) := now w in
  setMessages (fun prev =>
    prev ++ [{| ChatMessage.id := id; ChatMessage.type := type;
                ChatMessage.content := content; ChatMessage.ts := ts |}]) w.

Definition pushLog (content : Value) (w : World) : World :=
  let (id, w) := uid w in
  let (ts, w) := now w in
  setTerminalLogs (fun prev =>
    prev ++ [{| LogEntry.id := id; LogEntry.content := content;
                LogEntry.ts := ts |}]) w.

(** [ws.send(data)]: queued on an open socket, dropped on a closing or
    closed one.  (On a connecting socket [send] raises; every call
    site runs with the socket open.) *)
Definition ws_send (i : nat) (data : string) : World -> World :=
  with_socket i (fun ws =>
    match WebSocket.readyState ws with
    | OPEN =>
        {| WebSocket.url := WebSocket.url ws; WebSocket.readyState := OPEN;
           WebSocket.sent := WebSocket.sent ws ++ [data];
           WebSocket.closeCall := WebSocket.closeCall ws;
           WebSocket.initialTask := WebSocket.initialTask ws |}
    | _ => ws
    end).

(** [ws.close(code, reason)]: starts the closing handshake unless the
    socket is already closing or closed. *)
Definition ws_close (i : nat) (code : Z) (reason : string)
    : World -> World :=
  with_socket i (fun ws =>
    match WebSocket.readyState ws with
    | CONNECTING | OPEN =>
        {| WebSocket.url := WebSocket.url ws;
           WebSocket.readyState := CLOSING;
           WebSocket.sent := WebSocket.sent ws;
           WebSocket.closeCall := Some (code, reason);
           WebSocket.initialTask := WebSocket.initialTask ws |}
    | _ => ws
    end).

(** *** Heartbeat *)

Definition stopHeartbeat (w : World) : World :=
  match heartbeatRef (refs w) with
  | Some id =>
      if (id =? 0)%nat then w
      else
        let w := with_intervals
                   (filter (fun iv => negb (fst iv =? id)%nat)) w in
        set_heartbeatRef None w
  | None => w
  end.

Definition startHeartbeat (w : World) : World :=
  let w := stopHeartbeat w in
  let id := nextInterval (browser w) in
  let w := with_intervals (fun l => l ++ [(id, HEARTBEAT_INTERVAL_MS)]) w in
  let w := set_nextInterval (S id) w in
  set_heartbeatRef (Some id) w.

(** The interval callback. *)
Definition heartbeat_tick (w : World) : World :=
  match wsRef (refs w) with
  | Some i =>
      if ready_is w i OPEN
      then ws_send i (JSON_stringify (VObj [("type", VStr "ping")])) w
      else w
  | None => w
  end.

(** *** Handle incoming WebSocket messages *)

Definition handleEvent (raw : string) : M unit :=
  match JSON_parse raw with
  | None =>
      (* Non-JSON data: treat as terminal output *)
      upd (pushLog (VStr raw))
  | Some msg =>
      type <- lift (get msg "type") ;;
      if is_str type "log" || is_str type "observation" then
        content <- lift (get msg "content") ;;
        message <- lift (get msg "message") ;;
        let text :=
          or_else content (or_else message (VStr (JSON_stringify msg))) in
        upd (pushLog text) ;;;
        event <- lift (get msg "event") ;;
        when (is_str event "agent_message"
              || is_str event "AgentMessageAction")
             (upd (pushMessage agent content))
      else if is_str type "message" then
        content <- lift (get msg "content") ;;
        upd (pushMessage agent (or_else content (VStr "")))
      else if is_str type "file_tree" then
        tree <- lift (get msg "tree") ;;
        match tree with
        | VArr nodes =>
            upd (setFileTree nodes) ;;;
            n <- lift (_countFiles tree) ;;
            upd (pushLog (VStr ("📁 File tree updated ("
                                +:+ dec (Z.of_nat n) +:+ " items)")))
        | _ => ret tt
        end
      else if is_str type "file_change" then
        files <- lift (get msg "files") ;;
        path <- lift (get msg "path") ;;
        (match files with
         | VArr l => upd (setFiles (fun _ => l))
         | _ =>
             when (truthy path)
               (upd (setFiles (fun prev =>
                  if includes prev path then prev else prev ++ [path])))
         end) ;;;
        what <- (if truthy path then ret path
                 else joined <- lift (call_join_opt files ", ") ;;
                      ret (or_else joined (VStr "unknown"))) ;;
        s <- lift (toString what) ;;
        upd (pushLog (VStr ("📝 File changed: " +:+ s)))
      else if is_str type "agent_event" then
        c <- lift (get msg "content") ;;
        let content := or_else c (VStr "") in
        et <- lift (get msg "eventType") ;;
        ev <- lift (get msg "event") ;;
        let eventType := or_else et (or_else ev (VStr "")) in
        (* Agent thought: chat *)
        isMessage <- lift (call_includes eventType "Message") ;;
        isThought <- (if isMessage then ret true
                      else lift (call_includes eventType "Think")) ;;
        when isThought (upd (pushMessage agent content)) ;;;
        (* Command execution: terminal *)
        command <- lift (get msg "command") ;;
        (if truthy command then
           s <- lift (toString command) ;;
           upd (pushLog (VStr ("$ " +:+ s)))
         else ret tt) ;;;
        when (truthy content) (upd (pushLog content)) ;;;
        (* File tree update attached to event *)
        ft <- lift (get msg "fileTree") ;;
        match ft with
        | VArr l => upd (setFiles (fun _ => l))
        | _ => ret tt
        end
      else if is_str type "status" then
        st <- lift (get msg "status") ;;
        message <- lift (get msg "message") ;;
        s1 <- lift (toString st) ;;
        s2 <- lift (toString (or_else message (VStr ""))) ;;
        upd (pushLog (VStr ("[" +:+ s1 +:+ "] " +:+ s2))) ;;;
        sessionId <- lift (get msg "sessionId") ;;
        when (truthy sessionId) (upd (set_sessionIdRef sessionId)) ;;;
        when (is_str st "ready" || is_str st "mock_mode")
          (upd (setStatus st_connected) ;;;
           upd (pushMessage system
                  (or_else message (VStr "Agent is ready."))))
      else if is_str type "complete" then
        upd (pushMessage system (VStr "✅ Agent task completed.")) ;;;
        upd (pushLog (VStr "✅ Task completed"))
      else if is_str type "error" then
        message <- lift (get msg "message") ;;
        let errMsg := or_else message (VStr "Unknown error") in
        upd (setError errMsg) ;;;
        upd (setStatus st_error) ;;;
        s <- lift (toString errMsg) ;;
        upd (pushMessage system (VStr ("⚠️ " +:+ s))) ;;;
        s' <- lift (toString errMsg) ;;
        upd (pushLog (VStr ("❌ " +:+ s')))
      else if is_str type "pong" || is_str type "ack" then
        ret tt
      else
        upd (pushLog (VStr (JSON_stringify msg)))
  end.

(** *** Connect WebSocket *)

(** The double-connect test: [wsRef.current] is set and its socket is
    open or connecting. *)
Definition live (w : World) : bool :=
  match wsRef (refs w) with
  | Some i => ready_is w i OPEN || ready_is w i CONNECTING
  | None => false
  end.

Definition connect (initialTask : Task) (w : World) : World :=
  if live w then w
  else
    let w := setStatus st_connecting w in
    let w := setError VNull w in
    let w := pushLog (VStr "🔌 Connecting to AI Engine…") w in
    (* Build URL with token query param *)
    let url := if negb (token w =? "")
               then WS_BASE +:+ "?token=" +:+ token w else WS_BASE in
    let ws := List.length (sockets (browser w)) in
    let w := with_sockets (fun l =>
               l ++ [{| WebSocket.url := url;
                        WebSocket.readyState := CONNECTING;
                        WebSocket.sent := [];
                        WebSocket.closeCall := None;
                        WebSocket.initialTask := initialTask |}]) w in
    set_wsRef (Some ws) w.

(** [sessionStorage.getItem('lucid_model_provider') || 'google'] *)
Definition modelProvider (w : World) : string :=
  match storedModelProvider (browser w) with
  | Some s => if s =? "" then "google" else s
  | None => "google"
  end.

(** [s || d] on strings *)
Definition str_or (s d : string) : string := if s =? "" then d else s.

Definition handshake (w : World) (initialTask : Task) : Value :=
  VObj [ ("token", VStr (str_or (token w) ""));
         ("projectId", VStr (str_or (projectId w) ""));
         ("modelProvider", VStr (modelProvider w));
         ("repoUrl", VStr "");
         ("task", VStr (str_or (task_or_empty initialTask) "")) ].

(** [ws.onopen] of socket [ws], whose handlers closed over
    [initialTask]. *)
Definition onopen (ws : nat) (initialTask : Task) (w : World) : World :=
  let w := setStatus st_connected w in
  let w := set_reconnectCount 0 w in
  let w := pushLog (VStr "🟢 Connected") w in
  let w := startHeartbeat w in
  (* Send initial handshake *)
  let w := ws_send ws (JSON_stringify (handshake w initialTask)) w in
  if task_truthy initialTask
  then pushLog (VStr ("📨 Task sent: "
                      +:+ substring 0 80 (task_or_empty initialTask)
                      +:+ "…")) w
  else w.

(** [ws.onerror] *)
Definition onerror (w : World) : World :=
  pushLog (VStr "⚠️ WebSocket error") w.

Definition normal_close (code : Z) : bool :=
  existsb (Z.eqb code) [1000; 4001; 4010]%Z.

(** [ws.onclose] *)
Definition onclose (initialTask : Task) (code : Z) (reason : string)
    (w : World) : World :=
  let w := set_wsRef None w in
  let w := stopHeartbeat w in
  if normal_close code then
    (* Normal close codes *)
    let w := setStatus st_idle w in
    pushLog (VStr ("🔴 Session ended ("
                   +:+ (if negb (reason =? "") then reason else dec code)
                   +:+ ")")) w
  else if (reconnectCount (refs w) <? MAX_RECONNECTS)%nat then
    (* Auto-reconnect *)
    let n := S (reconnectCount (refs w)) in
    let w := set_reconnectCount n w in
    let w := pushLog (VStr ("🔄 Reconnecting (" +:+ dec (Z.of_nat n) +:+ "/"
                            +:+ dec (Z.of_nat MAX_RECONNECTS) +:+ ")…")) w in
    with_timeouts (fun l =>
      l ++ [{| delay := 2000; reconnectTask := initialTask |}]) w
  else
    let w := setStatus st_error w in
    let w := setError (VStr "Connection lost after multiple attempts.") w in
    pushLog (VStr "❌ Connection lost") w.

(** *** Public API *)

Definition sendMessageInternal (text : string) (w : World) : World :=
  match wsRef (refs w) with
  | Some i =>
      if ready_is w i OPEN then
        let w := ws_send i (JSON_stringify
                   (VObj [("type", VStr "action");
                          ("content", VStr text)])) w in
        let w := pushMessage user (VStr text) w in
        pushLog (VStr ("→ " +:+ text)) w
      else pushLog (VStr "⚠️ Not connected — cannot send message") w
  | None => pushLog (VStr "⚠️ Not connected — cannot send message") w
  end.

Definition wsRef_open (w : World) : bool :=
  match wsRef (refs w) with
  | Some i => ready_is w i OPEN
  | None => false
  end.

Definition startSession (task : Task) (w : World) : World :=
  if wsRef_open w then
    (* Already connected: just send as message *)
    if task_truthy task then sendMessageInternal (task_or_empty task) w
    else w
  else
    let w := if task_truthy task
             then pushMessage user (VStr (task_or_empty task)) w else w in
    connect task w.

(** [sendMessage(text)]; [None] is a [text] that is [undefined] or
    [null].  The page calls it where a run has [Call_startSession]:
    on a text that is not blank it is [startSession] on the trimmed
    text (lemma [sendMessage_start]), on a blank one it is no event. *)
Definition sendMessage (text : option string) (w : World) : World :=
  match text with
  | None => w
  | Some text =>
      if trim text =? "" then w
      else if negb (wsRef_open w)
      then
        (* If not connected yet, start a session with this as the task *)
        startSession (Some (trim text)) w
      else sendMessageInternal (trim text) w
  end.

Definition stopSession (w : World) : World :=
  let w := stopHeartbeat w in
  let w := match wsRef (refs w) with
           | Some i =>
               set_wsRef None (ws_close i 1000 "User stopped session" w)
           | None => w
           end in
  let w := setStatus st_idle w in
  pushLog (VStr "🛑 Session stopped") w.

(** Cleanup on unmount. *)
Definition unmount (w : World) : World :=
  let w := stopHeartbeat w in
  match wsRef (refs w) with
  | Some i => set_wsRef None (ws_close i 1000 "Component unmount" w)
  | None => w
  end.

(** *** selectFile *)

Definition exn_message (e : Exn) : string :=
  match e with
  | TypeError => TypeError_message
  | Error m => m
  end.

Definition same_path (prev : option ActiveFile.t) (path : string) : bool :=
  match prev with
  | Some f => ActiveFile.path f =? path
  | None => false
  end.

(** The [catch] block. *)
Definition selectFile_catch (path : string) (err : Exn) : M unit :=
  upd (pushLog (VStr ("⚠️ Failed to read " +:+ path +:+ ": "
                      +:+ exn_message err))) ;;;
  upd (setActiveFile (fun prev =>
    match prev with
    | Some f =>
        if ActiveFile.path f =? path then
          Some {| ActiveFile.path := ActiveFile.path f;
                  ActiveFile.content :=
                    VStr ("// Error loading file: " +:+ exn_message err);
                  ActiveFile.loading := false |}
        else prev
    | None => prev
    end)).

(** [selectFile(path)] up to its [await fetch(...)]. *)
Definition selectFile (path : string) : M unit :=
  if path =? "" then ret tt
  else
    (* Optimistic: show the file path immediately *)
    upd (setActiveFile (fun prev =>
      Some {| ActiveFile.path := path;
              ActiveFile.content :=
                match prev with
                | Some f =>
                    if ActiveFile.path f =? path then ActiveFile.content f
                    else VStr ""
                | None => VStr ""
                end;
              ActiveFile.loading := true |})) ;;;
    try_catch
      (fun w =>
         let sessionId := sessionIdRef (refs w) in
         (sid <- lift (toString (or_else sessionId (VStr ""))) ;;
          upd (with_fetches (fun l =>
            l ++ [{| endpoint := API_BASE +:+ "/api/files/read";
                     session_id := sid; fpath := path |}]))) w)
      (selectFile_catch path).

(** [selectFile(path)] after its fetch has settled. *)
Definition selectFile_resume (path : string) (o : FetchOutcome) : M unit :=
  try_catch
    (match o with
     | Rejected m => lift (Throw (Error m))
     | Response status body =>
         if negb (res_ok status) then
           let err := match body with
                      | inl v => v
                      | inr _ => VObj []
                      end in
           detail <- lift (get err "detail") ;;
           m <- lift (toString
                        (or_else detail (VStr ("HTTP " +:+ dec status)))) ;;
           lift (Throw (Error m))
         else
           match body with
           | inr m => lift (Throw (Error m))
           | inl data =>
               content <- lift (get data "content") ;;
               upd (setActiveFile (fun _ =>
                 Some {| ActiveFile.path := path;
                         ActiveFile.content := or_else content (VStr "");
                         ActiveFile.loading := false |}))
           end
     end)
    (selectFile_catch path).

(** ** The event loop

    One event is handled to completion before the next.  The browser
    delivers [open] to a connecting socket, [message] to an open one,
    [error] and [close] to one that is not closed yet; an exception
    that escapes a handler is reported and the state stays as the
    handler left it. *)
Inductive Event : Type :=
| Call_startSession (task : Task)
| Call_stopSession
| Call_selectFile (path : string)
| Unmount
| WsOpen (ws : nat)
| WsMessage (ws : nat) (data : string)
| WsError (ws : nat)
| WsClose (ws : nat) (code : Z) (reason : string)
| TimeoutFires (k : nat)
| IntervalFires (id : nat)
| FetchSettles (k : nat) (o : FetchOutcome).

Definition step (ev : Event) (w : World) : World :=
  match ev with
  | Call_startSession task => startSession task w
  | Call_stopSession => stopSession w
  | Call_selectFile path => snd (selectFile path w)
  | Unmount => unmount w
  | WsOpen i =>
      match sockets (browser w) !! i with
      | Some ws =>
          match WebSocket.readyState ws with
          | CONNECTING =>
              onopen i (WebSocket.initialTask ws)
                (with_socket i (set_readyState OPEN) w)
          | _ => w
          end
      | None => w
      end
  | WsMessage i data =>
      if ready_is w i OPEN then snd (handleEvent data w) else w
  | WsError i =>
      match readyState_of w i with
      | Some CLOSED | None => w
      | Some _ => onerror w
      end
  | WsClose i code reason =>
      match sockets (browser w) !! i with
      | Some ws =>
          match WebSocket.readyState ws with
          | CLOSED => w
          | _ =>
              onclose (WebSocket.initialTask ws) code reason
                (with_socket i (set_readyState CLOSED) w)
          end
      | None => w
      end
  | TimeoutFires k =>
      match timeouts (browser w) !! k with
      | Some t => connect (reconnectTask t) (with_timeouts (delete k) w)
      | None => w
      end
  | IntervalFires id =>
      if existsb (fun iv => (fst iv =? id)%nat) (intervals (browser w))
      then heartbeat_tick w else w
  | FetchSettles k o =>
      match fetches (browser w) !! k with
      | Some f =>
          snd (selectFile_resume (fpath f) o (with_fetches (delete k) w))
      | None => w
      end
  end.

Definition run (evs : list Event) (w : World) : World :=
  fold_left (fun w ev => step ev w) evs w.

End Hook.

(** ** Reading the projections *)

Definition log_contents (w : World) : list Value :=
  map LogEntry.content (terminalLogs (state w)).

Definition chat (w : World) : list (Kind * Value) :=
  map (fun m => (ChatMessage.type m, ChatMessage.content m))
      (messages (state w)).

(** The frames passed to [send] on socket [i]. *)
Definition sent_on (w : World) (i : nat) : list string :=
  match sockets (browser w) !! i with
  | Some ws => WebSocket.sent ws
  | None => []
  end.

(** [text] has [part] somewhere inside. *)
Definition contains (text part : string) : Prop :=
  exists before after, text = before +:+ part +:+ after.

(** Frames dispatched one after the other, as [ws.onmessage] does. *)
Definition dispatch_all {rt : Runtime} (raws : list string) (w : World) : World :=
  fold_left (fun w raw => snd (handleEvent raw w)) raws w.

(** *** The file tree of the data model

    [is_tree nodes n]: [nodes] is a list of node objects whose
    [children], where present, is again such a list, and the tree has
    [n] items in all. *)
Inductive is_tree : list Value -> nat -> Prop :=
| tree_nil : is_tree [] 0
| tree_file props rest n :
    nullish (own props "children") = true ->
    is_tree rest n ->
    is_tree (VObj props :: rest) (1 + n)
| tree_dir props children rest m n :
    own props "children" = VArr children ->
    is_tree children m ->
    is_tree rest n ->
    is_tree (VObj props :: rest) (1 + m + n).

(** The loop of [_countFiles] read with [get], one node at a time. *)
Definition _countFiles_node (node : Value) (count : nat) : Res nat :=
  let count := count + 1 in
  res_bind (get node "children") (fun children =>
  res_bind (get_opt children "length") (fun len =>
  if truthy len
  then res_bind (_countFiles children) (fun n => Ok (count + n))
  else Ok count)).

Fixpoint _countFiles_loop (nodes : list Value) (count : nat) : Res nat :=
  match nodes with
  | [] => Ok count
  | node :: rest =>
      res_bind (_countFiles_node node count) (_countFiles_loop rest)
  end.

(** ** A runtime to run the model on examples

    [print] writes a value as [JSON.stringify] does when no string needs
    an escape; [sample_parse] reads back the frames of [sample_frames]
    and rejects every other text. *)
Definition quoted (s : string) : string :=
  String "034" (s +:+ String "034" EmptyString).

Fixpoint print (v : Value) : string :=
  match v with
  | VUndefined | VNull => "null"
  | VBool true => "true"
  | VBool false => "false"
  | VNum n => dec n
  | VStr s => quoted s
  | VArr l =>
      "[" +:+
      (fix elems (l : list Value) : string :=
         match l with
         | [] => ""
         | [x] => print x
         | x :: rest => print x +:+ "," +:+ elems rest
         end) l +:+ "]"
  | VObj props =>
      "{" +:+
      (fix members (props : list (string * Value)) : string :=
         match props with
         | [] => ""
         | [(k, x)] => quoted k +:+ ":" +:+ print x
         | (k, x) :: rest =>
             quoted k +:+ ":" +:+ print x +:+ "," +:+ members rest
         end) props +:+ "}"
  end.

Definition frame_observation : Value :=
  VObj [("type", VStr "observation"); ("event", VStr "agent_message");
        ("message", VStr "hi")].

Definition frame_error (m : string) : Value :=
  VObj [("type", VStr "error"); ("message", VStr m)].

Definition frame_status_ready : Value :=
  VObj [("type", VStr "status"); ("status", VStr "ready");
        ("sessionId", VStr "s1")].

Definition tree_one : list Value :=
  [VObj [("name", VStr "src"); ("type", VStr "directory");
         ("children", VArr [VObj [("name", VStr "main.py");
                                  ("type", VStr "file")]])];
   VObj [("name", VStr "README.md"); ("type", VStr "file")]].

Definition tree_two : list Value :=
  [VObj [("name", VStr "app.js"); ("type", VStr "file")]].

Definition frame_file_tree (nodes : list Value) : Value :=
  VObj [("type", VStr "file_tree"); ("tree", VArr nodes)].

Definition frame_file_change (p : string) : Value :=
  VObj [("type", VStr "file_change"); ("path", VStr p)].

Definition frame_agent_event : Value :=
  VObj [("type", VStr "agent_event"); ("eventType", VStr "AgentMessageAction");
        ("content", VStr "Installing deps"); ("command", VStr "npm install")].

Definition sample_frames : list Value :=
  [ VNull; frame_observation; frame_error ""; frame_error "OOM";
    frame_status_ready; frame_file_tree tree_one; frame_file_tree tree_two;
    frame_file_tree [VNull]; frame_file_change "src/main.py";
    frame_file_change ""; frame_agent_event ].

Definition sample_parse (raw : string) : option Value :=
  find (fun v => print v =? raw) sample_frames.

Definition sample_runtime : Runtime :=
  {| JSON_parse := sample_parse;
     JSON_stringify := print;
     Date_now := fun k => (1700000000000 + Z.of_nat k)%Z;
     WS_BASE := "ws://localhost:8000/ws";
     API_BASE := "http://localhost:8000";
     TypeError_message := "TypeError" |}.

Definition w0 : World := initial_world "proj-1" "" None.

(** ** Vocabulary of the statements *)

(** The terminal line a [file_tree] frame leaves. *)
Definition file_tree_summary (n : nat) : Value :=
  VStr ("📁 File tree updated (" +:+ dec (Z.of_nat n) +:+ " items)").

(** A socket just after [new WebSocket(url)] in [connect]. *)
Definition fresh_socket {rt : Runtime} (w : World) (task : Task) : WebSocket.t :=
  {| WebSocket.url := if negb (token w =? "")
                      then WS_BASE +:+ "?token=" +:+ token w else WS_BASE;
     WebSocket.readyState := CONNECTING;
     WebSocket.sent := [];
     WebSocket.closeCall := None;
     WebSocket.initialTask := task |}.

(** A socket once it is open and [frame] was sent on it. *)
Definition opened (frame : string) (ws : WebSocket.t) : WebSocket.t :=
  {| WebSocket.url := WebSocket.url ws; WebSocket.readyState := OPEN;
     WebSocket.sent := WebSocket.sent ws ++ [frame];
     WebSocket.closeCall := WebSocket.closeCall ws;
     WebSocket.initialTask := WebSocket.initialTask ws |}.

Definition closed (ws : WebSocket.t) : Prop :=
  WebSocket.readyState ws = CLOSED.

(** No transport is left: every socket the hook created is closed. *)
Definition all_closed (w : World) : Prop :=
  Forall closed (sockets (browser w)).

(** The reconnect timer [onclose] schedules. *)
Definition retry (task : Task) : Timeout :=
  {| delay := 2000; reconnectTask := task |}.

(** The transport reports a failed attempt: [error], then [close]. *)
Definition attempt_fails (ws : nat) (code : Z) (reason : string)
    : list Event :=
  [WsError ws; WsClose ws code reason].

Definition is_start (ev : Event) : bool :=
  match ev with Call_startSession _ => true | _ => false end.

(** [w'] has the sockets, timers, socket ref and retry counter of [w]. *)
Definition same_conn (w w' : World) : Prop :=
  sockets (browser w') = sockets (browser w) /\
  timeouts (browser w') = timeouts (browser w) /\
  wsRef (refs w') = wsRef (refs w) /\
  reconnectCount (refs w') = reconnectCount (refs w).

(** A handler that leaves the connection alone. *)
Definition keeps {A} (m : M A) : Prop := forall w, same_conn w (snd (m w)).

(** The objects the hook serialises and sends: the heartbeat, a user
    action, the handshake. *)
Inductive Outbound : Value -> Prop :=
| Out_ping : Outbound (VObj [("type", VStr "ping")])
| Out_action text :
    Outbound (VObj [("type", VStr "action"); ("content", VStr text)])
| Out_handshake tok pid mp task :
    Outbound (VObj [("token", VStr tok); ("projectId", VStr pid);
                    ("modelProvider", VStr mp); ("repoUrl", VStr "");
                    ("task", VStr task)]).

Definition sent_ok {rt : Runtime} (frame : string) : Prop :=
  exists v, Outbound v /\ frame = JSON_stringify v.

Definition sockets_ok {rt : Runtime} (w : World) : Prop :=
  Forall (fun ws => Forall sent_ok (WebSocket.sent ws)) (sockets (browser w)).

(** What each dispatch of a list of frames returned. *)
Fixpoint outcomes {rt : Runtime} (raws : list string) (w : World)
    : list (Res unit) :=
  match raws with
  | [] => []
  | raw :: rest =>
      fst (handleEvent raw w) :: outcomes rest (snd (handleEvent raw w))
  end.

(** [raw] is a [file_tree] frame whose [tree] is the array [nodes]. *)
Definition tree_frame {rt : Runtime} (raw : string) (nodes : list Value)
    : Prop :=
  exists props,
    JSON_parse raw = Some (VObj props) /\
    own props "type" = VStr "file_tree" /\
    own props "tree" = VArr nodes.

(** ... and [nodes] is a tree of the data model, of [n] items. *)
Definition file_tree_frame {rt : Runtime} (raw : string)
    (nodes : list Value) (n : nat) : Prop :=
  tree_frame raw nodes /\ is_tree nodes n.

(** [raw] is a [file_change] frame that carries the single path [p] and
    no list of files. *)
Definition single_path_frame {rt : Runtime} (raw : string) (p : string) : Prop :=
  exists props,
    JSON_parse raw = Some (VObj props) /\
    own props "type" = VStr "file_change" /\
    isArray (own props "files") = false /\
    own props "path" = VStr p /\
    p <> "".

(** ** The conversation page

    [src/unnamed/part_004], the caller of the hook: it passes
    [token: ''], sends through [sendMessage] alone, and shows
    [status] and [error] in a badge. *)


(** [config[status].label] *)
Definition status_label (s : Status) : string :=
  match s with
  | st_idle => "Idle"
  | st_connecting => "Connecting..."
  | st_connected => "Connected"
  | st_error => "Error"
  end.

(** The text of the badge of [ConnectionStatus]:
    [error || current.label]. *)
Definition ConnectionStatus_label (status : Status) (error : Value) : Value :=
  or_else error (VStr (status_label status)).

(** ** Vocabulary of the further statements *)



(** A socket once [close(code, reason)] was called on it while it was
    open or connecting. *)
Definition closing (code : Z) (reason : string) (ws : WebSocket.t)
    : WebSocket.t :=
  {| WebSocket.url := WebSocket.url ws; WebSocket.readyState := CLOSING;
     WebSocket.sent := WebSocket.sent ws;
     WebSocket.closeCall := Some (code, reason);
     WebSocket.initialTask := WebSocket.initialTask ws |}.

(** A socket on which [close] can still start the closing handshake. *)
Definition open_or_connecting (ws : WebSocket.t) : Prop :=
  WebSocket.readyState ws = OPEN \/ WebSocket.readyState ws = CONNECTING.

(** *** Relations between the state before and after *)

(** A handler across which the relation [R] between the state before
    and the state after holds, whether it returns or throws. *)
Definition respects (R : World -> World -> Prop) {A} (m : M A) : Prop :=
  forall w, R w (snd (m w)).

(** [I] survives the step from [w] to [w']. *)
Definition preserves (I : World -> Prop) (w w' : World) : Prop := I w -> I w'.

(** The chat and the terminal of [w'] continue those of [w]. *)
Definition grows (w w' : World) : Prop :=
  messages (state w) `prefix_of` messages (state w') /\
  terminalLogs (state w) `prefix_of` terminalLogs (state w').

(** An error on display stays on display for as long as no socket is
    created. *)
Definition error_kept (w w' : World) : Prop :=
  List.length (sockets (browser w)) <= List.length (sockets (browser w')) /\
  (truthy (error (state w)) = true ->
   List.length (sockets (browser w')) = List.length (sockets (browser w)) ->
   truthy (error (state w')) = true).

(** What the handshake is built from: the arguments of the hook and the
    provider stored in the session storage. *)
Definition same_setup (w w' : World) : Prop :=
  projectId w' = projectId w /\ token w' = token w /\
  storedModelProvider (browser w') = storedModelProvider (browser w).


(** What a frame cannot reach: the sockets, timers and fetches, the
    refs of the connection, and the file in the editor. *)
Definition out_of_reach (w w' : World) : Prop :=
  sockets (browser w') = sockets (browser w) /\
  timeouts (browser w') = timeouts (browser w) /\
  intervals (browser w') = intervals (browser w) /\
  fetches (browser w') = fetches (browser w) /\
  wsRef (refs w') = wsRef (refs w) /\
  heartbeatRef (refs w') = heartbeatRef (refs w) /\
  reconnectCount (refs w') = reconnectCount (refs w) /\
  activeFile (state w') = activeFile (state w).

(** *** Invariants *)

(** The keep-alive timer: the only live interval is the one
    [heartbeatRef] holds. *)
Definition heartbeat_ok (w : World) : Prop :=
  0 < nextInterval (browser w) /\
  match heartbeatRef (refs w) with
  | Some id =>
      0 < id < nextInterval (browser w) /\
      intervals (browser w) = [(id, HEARTBEAT_INTERVAL_MS)]
  | None => intervals (browser w) = []
  end.

(** The retry budget: the counter is within [MAX_RECONNECTS] and every
    pending timer waits two seconds. *)
Definition budget_ok (w : World) : Prop :=
  reconnectCount (refs w) <= MAX_RECONNECTS /\
  Forall (fun t => delay t = 2000%Z) (timeouts (browser w)).

(** What is sent on a socket after the handshake: a heartbeat or a user
    action. *)
Inductive Follow_up : Value -> Prop :=
| Follow_ping : Follow_up (VObj [("type", VStr "ping")])
| Follow_action text :
    Follow_up (VObj [("type", VStr "action"); ("content", VStr text)]).

(** The frames of a socket on which the handshake came first: the
    handshake with the task of the socket, then heartbeats and user
    actions. *)
Definition handshake_first {rt : Runtime} (w : World) (ws : WebSocket.t)
    : Prop :=
  exists vs,
    WebSocket.sent ws
    = JSON_stringify (handshake w (WebSocket.initialTask ws))
        :: map JSON_stringify vs /\
    Forall Follow_up vs.

(** Nothing is sent before the socket is open, and the handshake is
    the first frame of a socket that is. *)
Definition socket_in_order {rt : Runtime} (w : World) (ws : WebSocket.t)
    : Prop :=
  match WebSocket.readyState ws with
  | CONNECTING => WebSocket.sent ws = []
  | OPEN => handshake_first w ws
  | CLOSING | CLOSED => WebSocket.sent ws = [] \/ handshake_first w ws
  end.

Definition protocol_ok {rt : Runtime} (w : World) : Prop :=
  Forall (socket_in_order w) (sockets (browser w)).

(** The editor shows a file as loading only while a read of that file
    is in flight. *)
Definition loading_ok (w : World) : Prop :=
  forall f,
    activeFile (state w) = Some f -> ActiveFile.loading f = true ->
    exists k fe,
      fetches (browser w) !! k = Some fe /\ fpath fe = ActiveFile.path f.

(** The id [uid] makes at time [t] from the counter value [n]. *)
Definition stamp (t : Z) (n : nat) : string :=
  "evt_" +:+ dec t +:+ "_" +:+ dec (Z.of_nat n).

Definition stamped (id : string) (n : nat) : Prop := exists t, id = stamp t n.

(** The ids of the chat messages, then those of the terminal lines. *)
Definition ids (w : World) : list string :=
  map ChatMessage.id (messages (state w))
  ++ map LogEntry.id (terminalLogs (state w)).

(** Every id on display was made from a counter value of its own, none
    above the counter. *)
Definition ids_ok (w : World) : Prop :=
  exists ms ls : list nat,
    Forall2 stamped (map ChatMessage.id (messages (state w))) ms /\
    Forall2 stamped (map LogEntry.id (terminalLogs (state w))) ls /\
    NoDup (ms ++ ls) /\
    Forall (fun n => n <= idCounter (refs w)) (ms ++ ls).

(** *** Frames and fetch outcomes *)

(** [msg.type] of a frame, [undefined] when the frame is no JSON or no
    object. *)
Definition frame_type {rt : Runtime} (raw : string) : Value :=
  match JSON_parse raw with
  | Some (VObj props) => own props "type"
  | _ => VUndefined
  end.

(** The [case] labels of the [switch] in [handleEvent]. *)
Definition handled (t : Value) : bool :=
  existsb (is_str t)
    ["log"; "observation"; "message"; "file_tree"; "file_change";
     "agent_event"; "status"; "complete"; "error"; "pong"; "ack"].

(** The cases that convert a field of the frame to text or call a
    method on it. *)
Definition converts (t : Value) : bool :=
  existsb (is_str t)
    ["file_tree"; "file_change"; "agent_event"; "status"; "error"].

(** How a read fails, with the message of the error the [catch] block
    sees: the request is rejected; the response is an error with a
    [detail], or without one, or with a body that is no JSON; the
    response is fine but its body is no JSON. *)
Inductive read_fails : FetchOutcome -> string -> Prop :=
| fails_rejected m :
    read_fails (Rejected m) m
| fails_detail status props d :
    res_ok status = false ->
    own props "detail" = VStr d -> d <> "" ->
    read_fails (Response status (inl (VObj props))) d
| fails_status status props :
    res_ok status = false ->
    truthy (own props "detail") = false ->
    read_fails (Response status (inl (VObj props))) ("HTTP " +:+ dec status)
| fails_status_no_json status m :
    res_ok status = false ->
    read_fails (Response status (inr m)) ("HTTP " +:+ dec status)
| fails_no_json status m :
    res_ok status = true ->
    read_fails (Response status (inr m)) m.

(** ** More sample states and frames *)

(** A session started with a task, before and after its socket has
    opened; one whose first attempt has failed and waits for the retry;
    one whose first socket was stopped and replaced; one that shows a
    file while it is read. *)
Definition w_connecting : World :=
  run (rt := sample_runtime) [Call_startSession (Some "fix the bug")] w0.

Definition w_open : World := step (rt := sample_runtime) (WsOpen 0) w_connecting.

Definition w_backoff : World :=
  run (rt := sample_runtime) [WsError 0; WsClose 0 1006 ""] w_connecting.


Definition w_reading : World :=
  step (rt := sample_runtime) (Call_selectFile "a.txt") w0.

(** The first socket of these sessions, as created and once open. *)
Definition ws_first : WebSocket.t :=
  fresh_socket (rt := sample_runtime) w0 (Some "fix the bug").

Definition ws_first_open : WebSocket.t :=
  opened (print (handshake w0 (Some "fix the bug"))) ws_first.

Definition frame_file_list : Value :=
  VObj [("type", VStr "file_change");
        ("files", VArr [VStr "a.py"; VStr "b.py"])].

(** [sample_runtime] with a parser that reads [frame_file_list] as
    well. *)
Definition listing_runtime : Runtime :=
  {| JSON_parse := fun raw =>
       if raw =? print frame_file_list then Some frame_file_list
       else sample_parse raw;
     JSON_stringify := print;
     Date_now := fun k => (1700000000000 + Z.of_nat k)%Z;
     WS_BASE := "ws://localhost:8000/ws";
     API_BASE := "http://localhost:8000";
     TypeError_message := "TypeError" |}.

(** * Proofs *)

Section Proofs.
Context {rt : Runtime}.

Ltac dispatch Hparse Htype :=
  unfold handleEvent; rewrite Hparse; cbn [bind lift get]; rewrite Htype; cbn.

(** ** Values *)

Lemma sameValueZero_str y p : sameValueZero y (VStr p) = true <-> y = VStr p.
Proof.
  destruct y; cbn; try (split; [discriminate | discriminate]).
  rewrite String.eqb_eq. split; congruence.
Qed.

Lemma includes_str l p : includes l (VStr p) = true <-> In (VStr p) l.
Proof.
  unfold includes. rewrite existsb_exists. split.
  - intros (y & Hy & Hs). apply sameValueZero_str in Hs. now subst.
  - intros H. exists (VStr p). split; [assumption | now apply sameValueZero_str].
Qed.

(** ** The item count

    The fixpoint and its reading with [get] agree. *)

Lemma _countFiles_array nodes :
  _countFiles (VArr nodes) = _countFiles_loop nodes 0.
Proof.
  cbn [_countFiles].
  match goal with
  | |- ?each nodes 0 = _ =>
      enough (H : forall l count, each l count = _countFiles_loop l count)
        by apply H
  end.
  clear nodes. intros nodes.
  induction nodes as [|node rest IH]; intros count; [reflexivity|].
  cbn [_countFiles_loop]. destruct node as [| |b|n|s|l|props];
    try (apply IH); try reflexivity.
  - unfold _countFiles_node. cbn [get res_bind].
    induction props as [|[k v] more IHp].
    + cbn. apply IH.
    + cbn [own]. destruct (k =? "children") eqn:Hk; [|apply IHp].
      unfold children_length.
      destruct (get_opt v "length") as [len|e] eqn:Hlen.
      * cbn [res_bind]. destruct (truthy len); [|apply IH].
        destruct (_countFiles v) as [n|e]; cbn [res_bind]; [apply IH | reflexivity].
      * exfalso. unfold get_opt in Hlen. destruct v; cbn in Hlen; discriminate.
Qed.

(** On a tree of the data model the loop adds its number of items. *)
Lemma is_tree_loop nodes n :
  is_tree nodes n -> forall count, _countFiles_loop nodes count = Ok (count + n).
Proof.
  induction 1 as [|props rest n Hc _ IH|props children rest m n Hc Hch IHc _ IH];
    intros count; cbn [_countFiles_loop].
  - f_equal. lia.
  - unfold _countFiles_node. cbn [get res_bind].
    destruct (own props "children"); try discriminate; cbn; rewrite IH; f_equal; lia.
  - unfold _countFiles_node. cbn [get res_bind]. rewrite Hc.
    cbn [get_opt nullish get res_bind]. rewrite String.eqb_refl.
    destruct children as [|c cs].
    + inversion Hch; subst. cbn [truthy List.length].
      change (negb (Z.of_nat 0 =? 0)%Z) with false. cbn [res_bind].
      rewrite IH. f_equal; lia.
    + cbn [truthy List.length]. 
      replace (negb (Z.of_nat (S (List.length cs)) =? 0)%Z) with true
        by (symmetry; apply negb_true_iff, Z.eqb_neq; lia).
      rewrite _countFiles_array, IHc. cbn [res_bind]. rewrite IH. f_equal; lia.
Qed.

Lemma is_tree_count nodes n :
  is_tree nodes n -> _countFiles (VArr nodes) = Ok n.
Proof. intros H. rewrite _countFiles_array. apply (is_tree_loop _ _ H 0). Qed.

(** ** The dispatcher, frame by frame *)

Lemma last_cons {A} (l : list A) (x d : A) :
  List.last (x :: l) d = List.last l x.
Proof.
  revert x d. induction l as [|y l IH]; intros x d; [reflexivity|].
  change (List.last (y :: l) d = List.last (y :: l) x). now rewrite !IH.
Qed.

Lemma tree_frame_effect raw nodes w :
  tree_frame raw nodes ->
  fileTree (state (snd (handleEvent raw w))) = nodes.
Proof.
  intros (props & Hp & Ht & Htree).
  dispatch Hp Ht. rewrite Htree. cbn [bind upd lift].
  destruct (_countFiles (VArr nodes)); reflexivity.
Qed.

Lemma file_tree_frame_effect raw nodes n w :
  file_tree_frame raw nodes n ->
  fst (handleEvent raw w) = Ok tt /\
  log_contents (snd (handleEvent raw w))
    = log_contents w ++ [file_tree_summary n].
Proof.
  intros ((props & Hp & Ht & Htree) & Hn).
  pose proof (is_tree_count _ _ Hn) as Hc.
  dispatch Hp Ht. rewrite Htree. cbn [bind upd lift]. rewrite Hc.
  unfold log_contents. cbn. rewrite map_app. auto.
Qed.

(** C5.  Dispatch any sequence of [file_tree] frames whose [tree] is an
    array: afterwards the FileTree projection is exactly the array of
    the last frame, whatever was there before (the projection is
    replaced, never merged).  When the arrays are trees of the data
    model, every frame has moreover left one terminal line with the
    recursive item count of its tree, and no dispatch has thrown. *)
Theorem C5_file_tree_replaced_wholesale :
  (forall (frames : list (string * list Value)) (w : World),
      Forall (fun f => tree_frame (fst f) (snd f)) frames ->
      fileTree (state (dispatch_all (map fst frames) w))
        = List.last (map snd frames) (fileTree (state w))) /\
  (forall (frames : list (string * (list Value * nat))) (w : World),
      Forall (fun f => file_tree_frame (fst f) (fst (snd f)) (snd (snd f)))
             frames ->
      log_contents (dispatch_all (map fst frames) w)
        = log_contents w
            ++ map (fun f => file_tree_summary (snd (snd f))) frames /\
      Forall (fun r => r = Ok tt) (outcomes (map fst frames) w)).
Proof.
  split.
  - intros frames w H. revert w.
    induction H as [|[raw nodes] rest Hf _ IH]; intros w; [reflexivity|].
    cbn [map fst snd dispatch_all fold_left] in *.
    fold (dispatch_all (map fst rest) (snd (handleEvent raw w))).
    rewrite IH, (tree_frame_effect raw nodes w Hf).
    symmetry. apply last_cons.
  - intros frames w H. revert w.
    induction H as [|[raw [nodes n]] rest Hf _ IH]; intros w.
    + cbn. rewrite app_nil_r. auto.
    + cbn [fst snd] in Hf.
      destruct (file_tree_frame_effect raw nodes n w Hf) as (Hok & Hlog).
      specialize (IH (snd (handleEvent raw w))).
      cbn [map dispatch_all fold_left outcomes fst snd] in *.
      destruct IH as (IH1 & IH2).
      fold (dispatch_all (map fst rest) (snd (handleEvent raw w))).
      split.
      * rewrite IH1, Hlog, <- app_assoc. reflexivity.
      * constructor; assumption.
Qed.

Lemma single_path_effect raw p w :
  single_path_frame raw p ->
  fst (handleEvent raw w) = Ok tt /\
  files (state (snd (handleEvent raw w)))
    = (if includes (files (state w)) (VStr p) then files (state w)
       else files (state w) ++ [VStr p]).
Proof.
  intros (props & Hp & Ht & Hfiles & Hpath & Hne).
  dispatch Hp Ht. rewrite Hpath.
  assert (Htruthy : truthy (VStr p) = true).
  { cbn. destruct (String.eqb_spec p ""); [contradiction | reflexivity]. }
  rewrite Htruthy.
  destruct (own props "files"); try discriminate; cbn; auto.
Qed.

(** C6.  A [file_change] frame that carries a single path (a non-empty
    string, and no list of files) leaves the flat file list exactly as
    it was when the path is already in it, and otherwise appends the
    path once at the end, after the entries already there.  Dispatching
    the same frame a second time changes nothing more. *)
Theorem C6_single_path_is_set_insertion raw p w :
  single_path_frame raw p ->
  let once := snd (handleEvent raw w) in
  let twice := snd (handleEvent raw once) in
  fst (handleEvent raw w) = Ok tt /\
  (In (VStr p) (files (state w)) -> files (state once) = files (state w)) /\
  (~ In (VStr p) (files (state w)) ->
     files (state once) = files (state w) ++ [VStr p]) /\
  files (state twice) = files (state once).
Proof.
  intros Hf once twice.
  destruct (single_path_effect raw p w Hf) as (Hok & Hfiles).
  destruct (single_path_effect raw p once Hf) as (_ & Hfiles2).
  fold once in Hfiles. fold twice in Hfiles2.
  assert (Hin : In (VStr p) (files (state once))).
  { rewrite Hfiles. destruct (includes (files (state w)) (VStr p)) eqn:E.
    - now apply includes_str.
    - apply in_or_app. right. now left. }
  repeat split.
  - exact Hok.
  - intros H. apply includes_str in H. now rewrite Hfiles, H.
  - intros H. rewrite Hfiles.
    destruct (includes (files (state w)) (VStr p)) eqn:E; [|reflexivity].
    apply includes_str in E. contradiction.
  - apply includes_str in Hin. now rewrite Hfiles2, Hin.
Qed.

Lemma contains_suffix pre m : contains (pre +:+ m) m.
Proof.
  exists pre, "". f_equal.
  induction m as [|c m IH]; [reflexivity|].
  change (String c m = String c (m +:+ "")). now f_equal.
Qed.

(** C8, as amended.  An [error] frame whose [message] is the string [m]
    sets the status to [error] and surfaces an error string to the
    [error] state, to a system chat message and to a terminal line: the
    string is [m] when [m] is not empty, and ["Unknown error"] when it
    is.  The sockets and the socket ref are left as they were: the
    frame does not close the transport. *)
Theorem C8_error_frame_surfaces raw props m w :
  JSON_parse raw = Some (VObj props) ->
  own props "type" = VStr "error" ->
  own props "message" = VStr m ->
  let w' := snd (handleEvent raw w) in
  let shown := str_or m "Unknown error" in
  fst (handleEvent raw w) = Ok tt /\
  (m <> "" -> shown = m) /\
  status (state w') = st_error /\
  error (state w') = VStr shown /\
  (exists text, chat w' = chat w ++ [(system, VStr text)] /\ contains text shown) /\
  (exists line, log_contents w' = log_contents w ++ [VStr line] /\ contains line shown) /\
  sockets (browser w') = sockets (browser w) /\
  wsRef (refs w') = wsRef (refs w).
Proof.
  intros Hp Ht Hm. dispatch Hp Ht. rewrite Hm.
  unfold or_else, str_or. cbn [truthy].
  destruct (String.eqb_spec m "") as [->|Hne]; cbn; unfold chat, log_contents; cbn;
    rewrite !map_app; cbn.
  - repeat split; try congruence.
    + eexists; split; [reflexivity | apply (contains_suffix _ "Unknown error")].
    + eexists; split; [reflexivity | apply (contains_suffix _ "Unknown error")].
  - repeat split.
    + eexists; split; [reflexivity | apply contains_suffix].
    + eexists; split; [reflexivity | apply contains_suffix].
Qed.

(** C2, where the dispatcher is not defensive.  The frame [null] parses
    and then [msg.type] raises a [TypeError]; an [observation] frame
    that signals an agent message but has no [content] appends an agent
    chat message whose content is [undefined], not the empty string. *)
Theorem C2_dispatch_not_defensive raw_null raw_obs props w :
  JSON_parse raw_null = Some VNull ->
  JSON_parse raw_obs = Some (VObj props) ->
  own props "type" = VStr "observation" ->
  own props "event" = VStr "agent_message" ->
  own props "content" = VUndefined ->
  fst (handleEvent raw_null w) = Throw TypeError /\
  fst (handleEvent raw_obs w) = Ok tt /\
  chat (snd (handleEvent raw_obs w)) = chat w ++ [(agent, VUndefined)].
Proof.
  intros Hnull Hp Ht He Hc. split.
  - unfold handleEvent. rewrite Hnull. reflexivity.
  - dispatch Hp Ht. rewrite He, Hc. cbn. unfold chat. cbn.
    rewrite map_app. auto.
Qed.

(** ** selectFile *)

Lemma eqb_false a b : a <> b -> (a =? b) = false.
Proof. apply String.eqb_neq. Qed.

Lemma selectFile_issues path sid w :
  path <> "" ->
  toString (or_else (sessionIdRef (refs w)) (VStr "")) = Ok sid ->
  selectFile path w =
  (Ok tt,
   with_fetches (fun l =>
     l ++ [{| endpoint := API_BASE +:+ "/api/files/read";
              session_id := sid; fpath := path |}])
     (setActiveFile (fun prev =>
        Some {| ActiveFile.path := path;
                ActiveFile.content :=
                  match prev with
                  | Some f =>
                      if ActiveFile.path f =? path then ActiveFile.content f
                      else VStr ""
                  | None => VStr ""
                  end;
                ActiveFile.loading := true |}) w)).
Proof.
  intros Hne Hsid. unfold selectFile. rewrite (eqb_false _ _ Hne).
  unfold bind, upd, try_catch, lift.
  cbn [setActiveFile with_state state refs sessionIdRef].
  now rewrite Hsid.
Qed.

(** C1, where the success path has no staleness test.  Select [a], then
    [b]: [b] is the active file.  When the read of [a] then succeeds,
    the active file becomes [a] again, with [a]'s content: the stale
    response has overwritten the newer selection. *)
Theorem C1_stale_success_overwrites w a b text sid :
  a <> "" -> b <> "" -> a <> b ->
  toString (or_else (sessionIdRef (refs w)) (VStr "")) = Ok sid ->
  let k := List.length (fetches (browser w)) in
  let w2 := run [Call_selectFile a; Call_selectFile b] w in
  let w3 := step (FetchSettles k
                    (Response 200 (inl (VObj [("content", VStr text)])))) w2 in
  activeFile (state w2)
    = Some {| ActiveFile.path := b; ActiveFile.content := VStr "";
              ActiveFile.loading := true |} /\
  activeFile (state w3)
    = Some {| ActiveFile.path := a;
              ActiveFile.content := or_else (VStr text) (VStr "");
              ActiveFile.loading := false |}.
Proof.
  intros Ha Hb Hab Hsid k w2 w3. subst w3 w2.
  cbn [run fold_left step].
  rewrite (selectFile_issues a sid w Ha Hsid). cbn [snd].
  rewrite (selectFile_issues b sid) by assumption. cbn.
  rewrite (eqb_false _ _ Hab).
  split; [reflexivity|].
  rewrite <- app_assoc. cbn [app]. subst k.
  rewrite list_lookup_middle by reflexivity.
  cbn. reflexivity.
Qed.

(** The failure path does test the path: a stale error is dropped. *)
Lemma stale_error_is_dropped w a b m sid :
  a <> "" -> b <> "" -> a <> b ->
  toString (or_else (sessionIdRef (refs w)) (VStr "")) = Ok sid ->
  let k := List.length (fetches (browser w)) in
  let w2 := run [Call_selectFile a; Call_selectFile b] w in
  let w3 := step (FetchSettles k (Rejected m)) w2 in
  activeFile (state w3) = activeFile (state w2).
Proof.
  intros Ha Hb Hab Hsid k w2 w3. subst w3 w2.
  cbn [run fold_left step].
  rewrite (selectFile_issues a sid w Ha Hsid). cbn [snd].
  rewrite (selectFile_issues b sid) by assumption. cbn.
  rewrite (eqb_false _ _ Hab).
  rewrite <- app_assoc. cbn [app]. subst k.
  rewrite list_lookup_middle by reflexivity.
  cbn. assert (Hba : (b =? a) = false) by (apply eqb_false; congruence).
  rewrite Hba, ?(eqb_false _ _ Hab). reflexivity.
Qed.

(** ** The connection manager *)

Lemma stopHeartbeat_shape w :
  exists h f, stopHeartbeat w = set_heartbeatRef h (with_intervals f w).
Proof.
  destruct w as [s [ws hb rc ic sid] [so ti iv ni fe cl sp] p t].
  unfold stopHeartbeat. cbn [refs heartbeatRef].
  destruct hb as [id|]; [destruct (id =? 0)%nat|].
  - exists (Some id), (fun l => l). reflexivity.
  - eexists _, _. reflexivity.
  - exists None, (fun l => l). reflexivity.
Qed.

Lemma startHeartbeat_shape w :
  exists h n f,
    startHeartbeat w = set_heartbeatRef h (set_nextInterval n (with_intervals f w)).
Proof.
  unfold startHeartbeat. destruct (stopHeartbeat_shape w) as (h & f & ->).
  eexists _, _, (fun l => f l ++ _). reflexivity.
Qed.

Lemma normal_close_In code :
  In code [1000; 4001; 4010]%Z -> normal_close code = true.
Proof.
  intros H. unfold normal_close. apply existsb_exists. exists code.
  split; [assumption | apply Z.eqb_refl].
Qed.

(** C9.  When a socket that is not closed yet closes with code 1000,
    4001 or 4010, the status becomes [idle], the socket ref is cleared
    and no timer is added, whatever the retry counter is; the counter
    itself is not touched. *)
Theorem C9_normal_close_goes_idle w i ws code reason :
  sockets (browser w) !! i = Some ws ->
  WebSocket.readyState ws <> CLOSED ->
  In code [1000; 4001; 4010]%Z ->
  let w' := step (WsClose i code reason) w in
  status (state w') = st_idle /\
  timeouts (browser w') = timeouts (browser w) /\
  List.length (sockets (browser w')) = List.length (sockets (browser w)) /\
  readyState_of w' i = Some CLOSED /\
  wsRef (refs w') = None /\
  reconnectCount (refs w') = reconnectCount (refs w).
Proof.
  intros Hi Hopen Hcode. cbn [step]. rewrite Hi.
  assert (Hstep :
    match WebSocket.readyState ws with
    | CLOSED => w
    | _ => onclose (WebSocket.initialTask ws) code reason
             (with_socket i (set_readyState CLOSED) w)
    end = onclose (WebSocket.initialTask ws) code reason
             (with_socket i (set_readyState CLOSED) w)).
  { destruct (WebSocket.readyState ws); congruence. }
  rewrite Hstep. clear Hstep. unfold onclose.
  rewrite (normal_close_In _ Hcode).
  destruct (stopHeartbeat_shape
              (set_wsRef None (with_socket i (set_readyState CLOSED) w)))
    as (h & f & ->).
  unfold readyState_of. cbn. rewrite Hi.
  rewrite length_insert, list_lookup_insert_eq by (eapply lookup_lt_Some; eassumption).
  cbn. auto 10.
Qed.

Lemma step_WsOpen w i ws :
  sockets (browser w) !! i = Some ws ->
  WebSocket.readyState ws = CONNECTING ->
  let w' := step (WsOpen i) w in
  sockets (browser w')
    = <[i := opened (JSON_stringify (handshake w (WebSocket.initialTask ws))) ws]>
        (sockets (browser w)) /\
  status (state w') = st_connected /\
  reconnectCount (refs w') = 0 /\
  wsRef (refs w') = wsRef (refs w) /\
  timeouts (browser w') = timeouts (browser w) /\
  chat w' = chat w /\
  sessionIdRef (refs w') = sessionIdRef (refs w) /\
  fetches (browser w') = fetches (browser w) /\
  projectId w' = projectId w /\ token w' = token w.
Proof.
  intros Hi Hc. cbn [step]. rewrite Hi, Hc. unfold onopen.
  match goal with
  | |- context [startHeartbeat ?x] =>
      destruct (startHeartbeat_shape x) as (h & n & f & ->)
  end.
  assert (Hlt : i < List.length (sockets (browser w)))
    by (eapply lookup_lt_Some; eassumption).
  destruct (task_truthy (WebSocket.initialTask ws));
    unfold chat; cbn; rewrite Hi; cbn;
    rewrite list_lookup_insert_eq by assumption;
    cbn; rewrite list_insert_insert_eq; auto 12.
Qed.

(** ** Handlers that leave the connection alone *)

Lemma same_conn_refl w : same_conn w w.
Proof. repeat split. Qed.

Lemma same_conn_trans w1 w2 w3 :
  same_conn w1 w2 -> same_conn w2 w3 -> same_conn w1 w3.
Proof.
  intros (a1 & a2 & a3 & a4) (b1 & b2 & b3 & b4).
  repeat split; congruence.
Qed.

Lemma keeps_ret {A} (a : A) : keeps (ret a).
Proof. intros w. apply same_conn_refl. Qed.

Lemma keeps_lift {A} (r : Res A) : keeps (lift r).
Proof. intros w. apply same_conn_refl. Qed.

Lemma keeps_upd f : (forall w, same_conn w (f w)) -> keeps (upd f).
Proof. intros H w. apply H. Qed.

Lemma keeps_bind {A B} (m : M A) (k : A -> M B) :
  keeps m -> (forall a, keeps (k a)) -> keeps (bind m k).
Proof.
  intros Hm Hk w. unfold bind. specialize (Hm w).
  destruct (m w) as [[a|e] w1]; cbn [snd] in *; [|assumption].
  eapply same_conn_trans; [eassumption | apply Hk].
Qed.

Lemma keeps_when b m : keeps m -> keeps (when b m).
Proof. intros H. destruct b; [assumption | apply keeps_ret]. Qed.

Lemma keeps_try_catch body handler :
  keeps body -> (forall e, keeps (handler e)) -> keeps (try_catch body handler).
Proof.
  intros Hb Hh w. unfold try_catch. specialize (Hb w).
  destruct (body w) as [[a|e] w1]; cbn [snd] in *; [assumption|].
  eapply same_conn_trans; [eassumption | apply Hh].
Qed.

Ltac keeps_step :=
  first
    [ apply keeps_ret
    | apply keeps_lift
    | apply keeps_upd; intros ?; repeat split; reflexivity
    | apply keeps_when
    | apply keeps_bind; [|intros ?]
    | apply keeps_try_catch; [|intros ?]
    | match goal with
      | |- keeps (if ?b then _ else _) => destruct b
      | |- keeps (match ?x with _ => _ end) => destruct x
      end ].

Lemma handleEvent_keeps raw : keeps (handleEvent raw).
Proof. unfold handleEvent. destruct (JSON_parse raw); repeat keeps_step. Qed.

Lemma selectFile_catch_keeps path e : keeps (selectFile_catch path e).
Proof. unfold selectFile_catch. repeat keeps_step. Qed.

Lemma selectFile_keeps path : keeps (selectFile path).
Proof.
  unfold selectFile. destruct (path =? ""); [apply keeps_ret|].
  apply keeps_bind; [repeat keeps_step | intros _].
  apply keeps_try_catch; [| apply selectFile_catch_keeps].
  intros w. cbn. unfold bind, lift.
  destruct (toString _); cbn; repeat split; reflexivity.
Qed.

Lemma selectFile_resume_keeps path o : keeps (selectFile_resume path o).
Proof.
  unfold selectFile_resume.
  apply keeps_try_catch; [| apply selectFile_catch_keeps].
  destruct o as [m|status body]; repeat keeps_step.
Qed.

(** ** What is ever sent *)

Lemma stopHeartbeat_conn w : same_conn w (stopHeartbeat w).
Proof. destruct (stopHeartbeat_shape w) as (h & f & ->). repeat split. Qed.

Lemma live_stable w w' :
  sockets (browser w') = sockets (browser w) ->
  wsRef (refs w') = wsRef (refs w) -> live w' = live w.
Proof.
  intros Hs Hr. unfold live, ready_is, readyState_of. now rewrite Hs, Hr.
Qed.

Lemma connect_not_live task w :
  live w = false ->
  sockets (browser (connect task w)) = sockets (browser w) ++ [fresh_socket w task] /\
  wsRef (refs (connect task w)) = Some (List.length (sockets (browser w))) /\
  timeouts (browser (connect task w)) = timeouts (browser w) /\
  reconnectCount (refs (connect task w)) = reconnectCount (refs w) /\
  status (state (connect task w)) = st_connecting /\
  error (state (connect task w)) = VNull /\
  chat (connect task w) = chat w /\
  sessionIdRef (refs (connect task w)) = sessionIdRef (refs w) /\
  projectId (connect task w) = projectId w /\ token (connect task w) = token w.
Proof.
  intros H. unfold connect. rewrite H. cbn. auto 12.
Qed.

Lemma connect_live task w : live w = true -> connect task w = w.
Proof. intros H. unfold connect. now rewrite H. Qed.

Lemma with_socket_sockets_ok i f w :
  (forall ws, Forall sent_ok (WebSocket.sent ws) ->
              Forall sent_ok (WebSocket.sent (f ws))) ->
  sockets_ok w -> sockets_ok (with_socket i f w).
Proof.
  intros Hf Hw. unfold sockets_ok in *. cbn.
  destruct (sockets (browser w) !! i) as [ws|] eqn:Hi; [|assumption].
  apply Forall_insert; [assumption|].
  apply Hf. rewrite Forall_forall in Hw. apply Hw.
  eapply list_elem_of_lookup_2. eassumption.
Qed.

Lemma sockets_ok_same w w' :
  sockets (browser w') = sockets (browser w) -> sockets_ok w -> sockets_ok w'.
Proof. unfold sockets_ok. now intros ->. Qed.

Lemma ws_send_ok i v w :
  Outbound v -> sockets_ok w -> sockets_ok (ws_send i (JSON_stringify v) w).
Proof.
  intros Hv. apply with_socket_sockets_ok. intros ws Hs.
  destruct (WebSocket.readyState ws); cbn; try assumption.
  apply Forall_app. split; [assumption|]. constructor; [|constructor].
  exists v. split; [assumption | reflexivity].
Qed.

Lemma ws_close_ok i c r w : sockets_ok w -> sockets_ok (ws_close i c r w).
Proof.
  apply with_socket_sockets_ok. intros ws Hs.
  destruct (WebSocket.readyState ws); cbn; assumption.
Qed.

Lemma connect_ok task w : sockets_ok w -> sockets_ok (connect task w).
Proof.
  intros H. destruct (live w) eqn:E.
  - now rewrite connect_live.
  - unfold sockets_ok. destruct (connect_not_live task w E) as (-> & _).
    apply Forall_app. split; [assumption|]. repeat constructor.
Qed.

Lemma handshake_outbound w task : Outbound (handshake w task).
Proof. apply Out_handshake. Qed.

Lemma step_sockets_ok ev w : sockets_ok w -> sockets_ok (step ev w).
Proof.
  intros H. destruct ev as [task| |path| |i|i data|i|i code reason|k|id|k o];
    cbn [step].
  - (* startSession *)
    unfold startSession. destruct (wsRef_open w).
    + destruct (task_truthy task); [|assumption].
      unfold sendMessageInternal.
      destruct (wsRef (refs w)) as [i|]; [destruct (ready_is w i OPEN)|];
        try (eapply sockets_ok_same; [|eassumption]; reflexivity).
      eapply sockets_ok_same;
        [| apply (ws_send_ok i _ w (Out_action (task_or_empty task)) H)].
      reflexivity.
    + apply connect_ok. destruct (task_truthy task); [|assumption].
      eapply sockets_ok_same; [|eassumption]. reflexivity.
  - (* stopSession *)
    unfold stopSession.
    pose proof (stopHeartbeat_conn w) as (Hs & _ & Hr & _).
    destruct (wsRef (refs (stopHeartbeat w))) as [i|].
    + eapply sockets_ok_same; [|apply (ws_close_ok i 1000 "User stopped session")].
      * reflexivity.
      * eapply sockets_ok_same; eassumption.
    + eapply sockets_ok_same; [|eassumption]. cbn. exact Hs.
  - (* selectFile *)
    eapply sockets_ok_same; [|eassumption]. apply selectFile_keeps.
  - (* unmount *)
    unfold unmount.
    pose proof (stopHeartbeat_conn w) as (Hs & _ & Hr & _).
    destruct (wsRef (refs (stopHeartbeat w))) as [i|].
    + eapply sockets_ok_same; [|apply (ws_close_ok i 1000 "Component unmount")].
      * reflexivity.
      * eapply sockets_ok_same; eassumption.
    + eapply sockets_ok_same; eassumption.
  - (* open *)
    destruct (sockets (browser w) !! i) as [ws|] eqn:Hi; [|assumption].
    destruct (WebSocket.readyState ws) eqn:Hr; try assumption.
    destruct (step_WsOpen w i ws Hi Hr) as (Hs & _).
    cbn [step] in Hs. rewrite Hi, Hr in Hs.
    unfold sockets_ok. rewrite Hs. apply Forall_insert; [assumption|].
    cbn. apply Forall_app. split.
    + unfold sockets_ok in H. rewrite Forall_forall in H. apply H.
      eapply list_elem_of_lookup_2. eassumption.
    + constructor; [|constructor]. eexists. split; [apply handshake_outbound | reflexivity].
  - (* message *)
    destruct (ready_is w i OPEN); [|assumption].
    eapply sockets_ok_same; [|eassumption]. apply handleEvent_keeps.
  - (* error *)
    destruct (readyState_of w i) as [[]|]; try assumption;
      (eapply sockets_ok_same; [|eassumption]; reflexivity).
  - (* close *)
    destruct (sockets (browser w) !! i) as [ws|] eqn:Hi; [|assumption].
    assert (Hc : sockets_ok (onclose (WebSocket.initialTask ws) code reason
                               (with_socket i (set_readyState CLOSED) w))).
    { unfold onclose.
      match goal with
      | |- context [stopHeartbeat ?x] =>
          destruct (stopHeartbeat_shape x) as (h & f & ->)
      end.
      eapply sockets_ok_same;
        [| apply (with_socket_sockets_ok i (set_readyState CLOSED) w);
           [intros ws' Hs; exact Hs | exact H] ].
      destruct (normal_close code); [reflexivity|].
      cbn [refs reconnectCount set_heartbeatRef with_refs with_intervals with_browser set_wsRef].
      destruct (_ <? _)%nat; reflexivity. }
    destruct (WebSocket.readyState ws); assumption.
  - (* timeout *)
    destruct (timeouts (browser w) !! k) as [t|]; [|assumption].
    apply connect_ok. eapply sockets_ok_same; [|eassumption]. reflexivity.
  - (* interval *)
    destruct (existsb _ _); [|assumption]. unfold heartbeat_tick.
    destruct (wsRef (refs w)) as [i|]; [|assumption].
    destruct (ready_is w i OPEN); [|assumption].
    apply ws_send_ok; [constructor | assumption].
  - (* fetch *)
    destruct (fetches (browser w) !! k) as [f|]; [|assumption].
    eapply sockets_ok_same; [|eassumption].
    etransitivity; [apply selectFile_resume_keeps | reflexivity].
Qed.

Lemma run_sockets_ok evs w : sockets_ok w -> sockets_ok (run evs w).
Proof.
  revert w. induction evs as [|ev evs IH]; intros w H; [assumption|].
  cbn [run fold_left]. apply IH. now apply step_sockets_ok.
Qed.

(** C10.  The handshake's [repoUrl] is the empty string for every
    project id, token, stored model provider and initial task; opening
    a socket sends that handshake; and in every run of the hook, every
    frame it has sent on any socket is the JSON text of a heartbeat, of
    a user action, or of a handshake whose [repoUrl] is empty. *)
Theorem C10_handshake_repoUrl_is_empty :
  (forall w task, get (handshake w task) "repoUrl" = Ok (VStr "")) /\
  (forall w i ws,
      sockets (browser w) !! i = Some ws ->
      WebSocket.readyState ws = CONNECTING ->
      sent_on (step (WsOpen i) w) i
        = WebSocket.sent ws
            ++ [JSON_stringify (handshake w (WebSocket.initialTask ws))]) /\
  (forall evs projectId token stored i frame,
      In frame (sent_on (run evs (initial_world projectId token stored)) i) ->
      exists v, frame = JSON_stringify v /\ Outbound v /\
                (get v "repoUrl" = Ok (VStr "") \/
                 get v "repoUrl" = Ok VUndefined)).
Proof.
  split; [reflexivity|]. split.
  - intros w i ws Hi Hr. destruct (step_WsOpen w i ws Hi Hr) as (Hs & _).
    unfold sent_on. rewrite Hs.
    rewrite list_lookup_insert_eq by (eapply lookup_lt_Some; eassumption).
    reflexivity.
  - intros evs p t s i frame Hin.
    assert (Hok : sockets_ok (run evs (initial_world p t s)))
      by (apply run_sockets_ok; constructor).
    unfold sent_on in Hin.
    destruct (sockets (browser (run evs (initial_world p t s))) !! i)
      as [ws|] eqn:Hi; [|contradiction].
    unfold sockets_ok in Hok. rewrite Forall_forall in Hok.
    specialize (Hok ws (list_elem_of_lookup_2 _ _ _ Hi)).
    rewrite Forall_forall in Hok.
    destruct (Hok frame) as (v & Hv & ->); [now apply list_elem_of_In|].
    exists v. split; [reflexivity|]. split; [assumption|].
    destruct Hv; cbn; auto.
Qed.

(** ** Reconnecting *)

Lemma all_closed_ready w i r : all_closed w -> r <> CLOSED -> ready_is w i r = false.
Proof.
  intros H Hr. unfold ready_is, readyState_of.
  destruct (sockets (browser w) !! i) as [ws|] eqn:Hi; cbn; [|reflexivity].
  unfold all_closed in H. rewrite Forall_forall in H.
  rewrite (H ws) by (eapply list_elem_of_lookup_2; eassumption).
  destruct r; congruence.
Qed.

Lemma all_closed_not_live w : all_closed w -> live w = false.
Proof.
  intros H. unfold live. destruct (wsRef (refs w)); [|reflexivity].
  now rewrite !all_closed_ready.
Qed.

Lemma all_closed_same w w' :
  sockets (browser w') = sockets (browser w) -> all_closed w -> all_closed w'.
Proof. unfold all_closed. now intros ->. Qed.

Lemma with_socket_closed i f w :
  (forall ws, closed ws -> closed (f ws)) ->
  all_closed w -> all_closed (with_socket i f w).
Proof.
  intros Hf Hw. unfold all_closed in *. cbn.
  destruct (sockets (browser w) !! i) as [ws|] eqn:Hi; [|assumption].
  apply Forall_insert; [assumption|]. apply Hf.
  rewrite Forall_forall in Hw. apply Hw. eapply list_elem_of_lookup_2. eassumption.
Qed.

(** *** One failed attempt *)

Lemma attempt_fails_effect w l ws code reason :
  sockets (browser w) = l ++ [ws] ->
  Forall closed l ->
  WebSocket.readyState ws = CONNECTING ->
  normal_close code = false ->
  let w' := run (attempt_fails (List.length l) code reason) w in
  all_closed w' /\
  List.length (sockets (browser w')) = S (List.length l) /\
  if (reconnectCount (refs w) <? MAX_RECONNECTS)%nat then
    timeouts (browser w') = timeouts (browser w) ++ [retry (WebSocket.initialTask ws)] /\
    reconnectCount (refs w') = S (reconnectCount (refs w)) /\
    status (state w') = status (state w)
  else
    timeouts (browser w') = timeouts (browser w) /\
    status (state w') = st_error /\
    error (state w') = VStr "Connection lost after multiple attempts.".
Proof.
  intros Hs Hl Hc Hn.
  assert (Hi : sockets (browser w) !! List.length l = Some ws)
    by (rewrite Hs; now apply list_lookup_middle).
  unfold attempt_fails. cbn [run fold_left step].
  unfold readyState_of. rewrite Hi. cbn [fmap option_fmap option_map]. rewrite Hc.
  unfold onerror. 
  change (sockets (browser (pushLog (VStr "⚠️ WebSocket error") w)))
    with (sockets (browser w)).
  rewrite Hi, Hc. unfold onclose. rewrite Hn.
  match goal with
  | |- context [stopHeartbeat ?x] =>
      destruct (stopHeartbeat_shape x) as (h & f & ->)
  end.
  cbn [refs reconnectCount set_heartbeatRef with_refs with_intervals with_browser
       set_wsRef with_socket with_sockets pushLog uid now set_clock set_idCounter].
  assert (Hins : <[List.length l := set_readyState CLOSED ws]> (sockets (browser w))
                 = l ++ [set_readyState CLOSED ws]).
  { rewrite Hs. rewrite insert_app_r_alt by lia.
    now rewrite Nat.sub_diag. }
  destruct (_ <? _)%nat; unfold all_closed; cbn; rewrite Hi, Hins;
    (split; [apply Forall_app; split; [assumption | repeat constructor] |]);
    rewrite length_app; cbn; (split; [lia|]); auto.
Qed.

Lemma connect_attempt task w code reason :
  all_closed w ->
  normal_close code = false ->
  let n := List.length (sockets (browser w)) in
  let w' := run (attempt_fails n code reason) (connect task w) in
  all_closed w' /\
  List.length (sockets (browser w')) = S n /\
  if (reconnectCount (refs w) <? MAX_RECONNECTS)%nat then
    timeouts (browser w') = timeouts (browser w) ++ [retry task] /\
    reconnectCount (refs w') = S (reconnectCount (refs w)) /\
    status (state w') = st_connecting
  else
    timeouts (browser w') = timeouts (browser w) /\
    status (state w') = st_error /\
    error (state w') = VStr "Connection lost after multiple attempts.".
Proof.
  intros Hc Hn n w'.
  destruct (connect_not_live task w (all_closed_not_live w Hc))
    as (Hs & _ & Ht & Hr & Hst & _).
  pose proof (attempt_fails_effect (connect task w) (sockets (browser w))
                (fresh_socket w task) code reason Hs Hc eq_refl Hn) as H.
  cbv zeta in H. rewrite Ht, Hr, Hst in H. exact H.
Qed.

Lemma first_round task w code reason :
  all_closed w ->
  normal_close code = false ->
  let n := List.length (sockets (browser w)) in
  let w' := run (Call_startSession task :: attempt_fails n code reason) w in
  all_closed w' /\
  List.length (sockets (browser w')) = S n /\
  if (reconnectCount (refs w) <? MAX_RECONNECTS)%nat then
    timeouts (browser w') = timeouts (browser w) ++ [retry task] /\
    reconnectCount (refs w') = S (reconnectCount (refs w)) /\
    status (state w') = st_connecting
  else
    timeouts (browser w') = timeouts (browser w) /\
    status (state w') = st_error /\
    error (state w') = VStr "Connection lost after multiple attempts.".
Proof.
  intros Hc Hn n w'. subst w'.
  change (run (Call_startSession task :: attempt_fails n code reason) w)
    with (run (attempt_fails n code reason) (startSession task w)).
  unfold startSession, wsRef_open.
  assert (Ho : match wsRef (refs w) with
               | Some i => ready_is w i OPEN
               | None => false
               end = false).
  { destruct (wsRef (refs w)); [|reflexivity]. now apply all_closed_ready. }
  rewrite Ho.
  destruct (task_truthy task).
  - apply (connect_attempt task (pushMessage user (VStr (task_or_empty task)) w)).
    + eapply all_closed_same; [|eassumption]. reflexivity.
    + assumption.
  - now apply connect_attempt.
Qed.

Lemma retry_round task w code reason :
  all_closed w ->
  timeouts (browser w) = [retry task] ->
  normal_close code = false ->
  let n := List.length (sockets (browser w)) in
  let w' := run (TimeoutFires 0 :: attempt_fails n code reason) w in
  all_closed w' /\
  List.length (sockets (browser w')) = S n /\
  if (reconnectCount (refs w) <? MAX_RECONNECTS)%nat then
    timeouts (browser w') = [retry task] /\
    reconnectCount (refs w') = S (reconnectCount (refs w)) /\
    status (state w') = st_connecting
  else
    timeouts (browser w') = [] /\
    status (state w') = st_error /\
    error (state w') = VStr "Connection lost after multiple attempts.".
Proof.
  intros Hc Ht Hn n w'. subst w'.
  change (run (TimeoutFires 0 :: attempt_fails n code reason) w)
    with (run (attempt_fails n code reason) (step (TimeoutFires 0) w)).
  cbn [step]. rewrite Ht. cbn [lookup list_lookup retry reconnectTask].
  apply (connect_attempt task (with_timeouts (delete 0) w) code reason) in Hn.
  - cbv zeta in Hn. cbn [with_timeouts with_browser browser timeouts refs] in Hn.
    rewrite Ht in Hn. exact Hn.
  - eapply all_closed_same; [|eassumption]. reflexivity.
Qed.

(** *** Once given up, nothing but [startSession] connects again *)

Lemma quiet_step ev w :
  is_start ev = false ->
  all_closed w -> timeouts (browser w) = [] ->
  all_closed (step ev w) /\ timeouts (browser (step ev w)) = [] /\
  List.length (sockets (browser (step ev w))) = List.length (sockets (browser w)).
Proof.
  intros Hev Hc Ht.
  assert (Hsame : forall w', same_conn w w' ->
            all_closed w' /\ timeouts (browser w') = [] /\
            List.length (sockets (browser w')) = List.length (sockets (browser w))).
  { intros w' (Hs & Ht' & _). unfold all_closed. rewrite Hs, Ht'. auto. }
  assert (Hclose : forall w' i c r, same_conn w w' ->
            all_closed (ws_close i c r w') /\
            timeouts (browser (ws_close i c r w')) = [] /\
            List.length (sockets (browser (ws_close i c r w')))
              = List.length (sockets (browser w))).
  { intros w' i c r (Hs & Ht' & _). repeat split.
    - apply with_socket_closed.
      + intros ws Hws. unfold closed in *. now rewrite Hws.
      + unfold all_closed. now rewrite Hs.
    - cbn. now rewrite Ht'.
    - cbn. destruct (sockets (browser w') !! i);
        rewrite ?length_insert; now rewrite Hs. }
  destruct ev as [task| |path| |i|i data|i|i code reason|k|id|k o];
    cbn [step]; try discriminate.
  - unfold stopSession. pose proof (stopHeartbeat_conn w) as Hh.
    destruct (wsRef (refs (stopHeartbeat w))) as [i|].
    + destruct (Hclose (stopHeartbeat w) i 1000%Z "User stopped session" Hh)
        as (H1 & H2 & H3).
      repeat split; assumption.
    + apply Hsame. destruct Hh as (? & ? & ? & ?). repeat split; assumption.
  - apply Hsame, selectFile_keeps.
  - unfold unmount. pose proof (stopHeartbeat_conn w) as Hh.
    destruct (wsRef (refs (stopHeartbeat w))) as [i|].
    + destruct (Hclose (stopHeartbeat w) i 1000%Z "Component unmount" Hh)
        as (H1 & H2 & H3).
      repeat split; assumption.
    + now apply Hsame.
  - destruct (sockets (browser w) !! i) as [ws|] eqn:Hi; [|auto].
    unfold all_closed in Hc. rewrite Forall_forall in Hc.
    rewrite (Hc ws) by (eapply list_elem_of_lookup_2; eassumption).
    rewrite <- Forall_forall in Hc. auto.
  - rewrite all_closed_ready by (assumption || discriminate). auto.
  - unfold readyState_of.
    destruct (sockets (browser w) !! i) as [ws|] eqn:Hi; cbn; [|auto].
    unfold all_closed in Hc. rewrite Forall_forall in Hc.
    rewrite (Hc ws) by (eapply list_elem_of_lookup_2; eassumption).
    rewrite <- Forall_forall in Hc. auto.
  - destruct (sockets (browser w) !! i) as [ws|] eqn:Hi; [|auto].
    unfold all_closed in Hc. rewrite Forall_forall in Hc.
    rewrite (Hc ws) by (eapply list_elem_of_lookup_2; eassumption).
    rewrite <- Forall_forall in Hc. auto.
  - rewrite Ht. cbn. auto.
  - destruct (existsb _ _); [|auto]. unfold heartbeat_tick.
    destruct (wsRef (refs w)) as [i|]; [|auto].
    rewrite all_closed_ready by (assumption || discriminate). auto.
  - destruct (fetches (browser w) !! k) as [f|]; [|auto].
    apply Hsame. eapply same_conn_trans; [|apply selectFile_resume_keeps].
    repeat split.
Qed.

Lemma quiet_run evs w :
  Forall (fun ev => is_start ev = false) evs ->
  all_closed w -> timeouts (browser w) = [] ->
  timeouts (browser (run evs w)) = [] /\
  List.length (sockets (browser (run evs w))) = List.length (sockets (browser w)).
Proof.
  intros H. revert w. induction H as [|ev evs Hev _ IH]; intros w Hc Ht.
  - auto.
  - cbn [run fold_left].
    destruct (quiet_step ev w Hev Hc Ht) as (Hc' & Ht' & Hl).
    destruct (IH _ Hc' Ht') as (IH1 & IH2). split; [exact IH1 | exact (eq_trans IH2 Hl)].
Qed.

(** C4.  Start a session when no transport is left, no timer is pending
    and the retry counter is 0, and let every attempt fail with a close
    code outside 1000, 4001, 4010.  After each of the first three
    failures exactly one timer is pending, with a delay of 2000 ms and
    the same initial task.  After the fourth failure no timer is
    pending, four sockets have been created in all (the first attempt
    and three reconnects), the status is [error] with the message
    "Connection lost after multiple attempts.", and whatever happens
    next, short of a new [startSession], no timer and no socket is
    ever added. *)
Theorem C4_three_reconnects_then_error
    (w : World) (task : Task) (c1 c2 c3 c4 : Z) (r1 r2 r3 r4 : string) :
  all_closed w ->
  timeouts (browser w) = [] ->
  reconnectCount (refs w) = 0 ->
  normal_close c1 = false -> normal_close c2 = false ->
  normal_close c3 = false -> normal_close c4 = false ->
  let n := List.length (sockets (browser w)) in
  let w1 := run (Call_startSession task :: attempt_fails n c1 r1) w in
  let w2 := run (TimeoutFires 0 :: attempt_fails (n + 1) c2 r2) w1 in
  let w3 := run (TimeoutFires 0 :: attempt_fails (n + 2) c3 r3) w2 in
  let w4 := run (TimeoutFires 0 :: attempt_fails (n + 3) c4 r4) w3 in
  (timeouts (browser w1) = [retry task] /\
   timeouts (browser w2) = [retry task] /\
   timeouts (browser w3) = [retry task]) /\
  (timeouts (browser w4) = [] /\
   List.length (sockets (browser w4)) = n + 4 /\
   status (state w4) = st_error /\
   error (state w4) = VStr "Connection lost after multiple attempts.") /\
  (forall evs, Forall (fun ev => is_start ev = false) evs ->
     timeouts (browser (run evs w4)) = [] /\
     List.length (sockets (browser (run evs w4))) = n + 4).
Proof.
  intros Hc Ht Hr H1 H2 H3 H4 n w1.
  pose proof (first_round task w c1 r1 Hc H1) as R1. cbv zeta in R1.
  fold n in R1. fold w1 in R1. rewrite Hr, Ht in R1. clearbody w1.
  cbn in R1. destruct R1 as (Hc1 & Hl1 & Ht1 & Hr1 & _).
  intros w2.
  pose proof (retry_round task w1 c2 r2 Hc1 Ht1 H2) as R2. cbv zeta in R2.
  rewrite Hl1, Hr1 in R2. replace (S n) with (n + 1) in R2 by lia.
  fold w2 in R2. clearbody w2.
  cbn in R2. destruct R2 as (Hc2 & Hl2 & Ht2 & Hr2 & _).
  intros w3.
  pose proof (retry_round task w2 c3 r3 Hc2 Ht2 H3) as R3. cbv zeta in R3.
  rewrite Hl2, Hr2 in R3. replace (S (n + 1)) with (n + 2) in R3 by lia.
  fold w3 in R3. clearbody w3.
  cbn in R3. destruct R3 as (Hc3 & Hl3 & Ht3 & Hr3 & _).
  intros w4.
  pose proof (retry_round task w3 c4 r4 Hc3 Ht3 H4) as R4. cbv zeta in R4.
  rewrite Hl3, Hr3 in R4. replace (S (n + 2)) with (n + 3) in R4 by lia.
  fold w4 in R4. clearbody w4.
  cbn in R4. destruct R4 as (Hc4 & Hl4 & Ht4 & Hs4 & He4).
  repeat split; try assumption; try lia.
  - now apply quiet_run.
  - destruct (quiet_run evs w4 H Hc4 Ht4) as (_ & ->). lia.
Qed.

Lemma stopSession_effect w :
  status (state (stopSession w)) = st_idle /\
  wsRef (refs (stopSession w)) = None /\
  timeouts (browser (stopSession w)) = timeouts (browser w) /\
  List.length (sockets (browser (stopSession w)))
    = List.length (sockets (browser w)).
Proof.
  unfold stopSession. destruct (stopHeartbeat_shape w) as (h & f & ->).
  cbn [refs wsRef set_heartbeatRef with_refs with_intervals with_browser].
  destruct (wsRef (refs w)) as [i|] eqn:E; cbn; [|auto].
  destruct (sockets (browser w) !! i); rewrite ?length_insert; auto.
Qed.

(** C3, as amended.  [stopSession] with a reconnect timer pending makes
    the status [idle] but leaves the timer pending.  When the timer
    fires after the stop, [connect] finds no live transport: it opens a
    new socket and the status becomes [connecting].  The callback
    abandons itself only when a transport is open or connecting at that
    moment. *)
Theorem C3_stop_does_not_cancel_reconnect (w : World) (k : nat) (t : Timeout) :
  timeouts (browser w) !! k = Some t ->
  let w1 := step Call_stopSession w in
  let w2 := step (TimeoutFires k) w1 in
  (status (state w1) = st_idle /\
   timeouts (browser w1) = timeouts (browser w)) /\
  (status (state w2) = st_connecting /\
   sockets (browser w2)
     = sockets (browser w1) ++ [fresh_socket w (reconnectTask t)] /\
   wsRef (refs w2) = Some (List.length (sockets (browser w1))) /\
   timeouts (browser w2) = delete k (timeouts (browser w))) /\
  (live w = true -> step (TimeoutFires k) w = with_timeouts (delete k) w).
Proof.
  intros Hk w1 w2.
  destruct (stopSession_effect w) as (Hst & Hws & Hto & Hlen).
  change (stopSession w) with w1 in Hst, Hws, Hto, Hlen.
  split; [auto|]. split.
  - subst w2. cbn [step]. rewrite Hto, Hk.
    assert (Hl : live (with_timeouts (delete k) w1) = false).
    { unfold live. cbn [with_timeouts with_browser refs]. now rewrite Hws. }
    destruct (connect_not_live (reconnectTask t) _ Hl)
      as (Hs & Hr & Ht & _ & Hc & _).
    rewrite Hs, Hr, Ht, Hc. cbn [with_timeouts with_browser browser sockets timeouts].
    rewrite Hto. repeat split.
    f_equal. f_equal. unfold fresh_socket. cbn [with_timeouts with_browser token].
    replace (token w1) with (token w); [reflexivity|].
    subst w1. cbn [step]. unfold stopSession.
    destruct (stopHeartbeat_shape w) as (h & f & ->).
    cbn [refs wsRef set_heartbeatRef with_refs with_intervals with_browser].
    destruct (wsRef (refs w)); reflexivity.
  - intros Hl. cbn [step]. rewrite Hk. apply connect_live.
    rewrite <- Hl. apply live_stable; reflexivity.
Qed.

(** C7.  [startSession(task)] with a non-empty task, in an idle session
    with no live transport, creates a connecting socket on which
    nothing is sent yet; when it opens, exactly one frame is sent, the
    handshake, whose [task] is the given task.  The status frame
    [{type:"status", status:"ready", sessionId:"s1"}] then sends
    nothing, makes the status [connected], appends the system message
    "Agent is ready." and sets the session id to ["s1"], which is the
    [session_id] of the next file read. *)
Theorem C7_start_handshake_ready (w : World) (task raw p : string) :
  status (state w) = st_idle ->
  live w = false ->
  task <> "" ->
  p <> "" ->
  JSON_parse raw = Some frame_status_ready ->
  let n := List.length (sockets (browser w)) in
  let w1 := step (Call_startSession (Some task)) w in
  let w2 := step (WsOpen n) w1 in
  let w3 := step (WsMessage n raw) w2 in
  let w4 := step (Call_selectFile p) w3 in
  (readyState_of w1 n = Some CONNECTING /\ sent_on w1 n = []) /\
  (sent_on w2 n = [JSON_stringify (handshake w1 (Some task))] /\
   get (handshake w1 (Some task)) "task" = Ok (VStr task) /\
   sent_on w3 n = sent_on w2 n) /\
  status (state w3) = st_connected /\
  chat w3 = chat w2 ++ [(system, VStr "Agent is ready.")] /\
  sessionIdRef (refs w3) = VStr "s1" /\
  fetches (browser w4)
    = fetches (browser w3)
        ++ [{| endpoint := API_BASE +:+ "/api/files/read";
               session_id := "s1"; fpath := p |}].
Proof.
  intros _ Hlive Htask Hp Hparse n w1 w2 w3 w4.
  assert (Htt : task_truthy (Some task) = true).
  { cbn. now rewrite (eqb_false _ _ Htask). }
  (* start *)
  assert (Hw1 : w1 = connect (Some task) (pushMessage user (VStr task) w)).
  { subst w1. cbn [step]. unfold startSession, wsRef_open.
    assert (Ho : match wsRef (refs w) with
                 | Some i => ready_is w i OPEN
                 | None => false
                 end = false).
    { unfold live in Hlive. destruct (wsRef (refs w)); [|reflexivity].
      now apply orb_false_iff in Hlive. }
    now rewrite Ho, Htt. }
  destruct (connect_not_live (Some task) (pushMessage user (VStr task) w))
    as (Hs1 & Hr1 & _).
  { rewrite <- Hlive. apply live_stable; reflexivity. }
  rewrite <- Hw1 in Hs1, Hr1.
  change (sockets (browser (pushMessage user (VStr task) w)))
    with (sockets (browser w)) in Hs1.
  set (ws := fresh_socket (pushMessage user (VStr task) w) (Some task)) in Hs1.
  assert (Hi1 : sockets (browser w1) !! n = Some ws)
    by (rewrite Hs1; now apply list_lookup_middle).
  assert (Hhs : get (handshake w1 (Some task)) "task" = Ok (VStr task)).
  { cbn. unfold str_or. now rewrite (eqb_false _ _ Htask). }
  clearbody w1.
  (* open *)
  destruct (step_WsOpen w1 n ws Hi1 eq_refl)
    as (Hs2 & _ & _ & _ & _ & _ & _ & _ & _).
  fold w2 in Hs2.
  assert (Hi2 : sockets (browser w2) !! n
                = Some (opened (JSON_stringify (handshake w1 (Some task))) ws)).
  { rewrite Hs2. apply list_lookup_insert_eq. eapply lookup_lt_Some; eassumption. }
  clearbody w2.
  (* the status frame *)
  assert (Hopen : ready_is w2 n OPEN = true).
  { unfold ready_is, readyState_of. now rewrite Hi2. }
  assert (Hw3 : w3 = snd (handleEvent raw w2)).
  { subst w3. cbn [step]. now rewrite Hopen. }
  pose proof (handleEvent_keeps raw w2) as (Hs3 & _).
  rewrite <- Hw3 in Hs3.
  assert (H3 : status (state w3) = st_connected /\
               chat w3 = chat w2 ++ [(system, VStr "Agent is ready.")] /\
               sessionIdRef (refs w3) = VStr "s1").
  { rewrite Hw3. unfold handleEvent. rewrite Hparse. cbn.
    unfold chat. cbn. rewrite map_app. auto. }
  destruct H3 as (Hst3 & Hchat3 & Hsid3).
  clearbody w3.
  (* the next file read *)
  assert (Hw4 : fetches (browser w4)
                = fetches (browser w3)
                    ++ [{| endpoint := API_BASE +:+ "/api/files/read";
                           session_id := "s1"; fpath := p |}]).
  { subst w4. cbn [step].
    rewrite (selectFile_issues p "s1" w3 Hp) by now rewrite Hsid3.
    reflexivity. }
  repeat split; try assumption.
  - unfold readyState_of. now rewrite Hi1.
  - unfold sent_on. now rewrite Hi1.
  - unfold sent_on. now rewrite Hi2.
  - unfold sent_on. now rewrite Hs3.
Qed.

End Proofs.

(** * The statements on concrete runs

    Every run below is on [sample_runtime], from the fresh hook [w0]. *)

(** Select a.txt, then b.txt; a.txt's read succeeds: a.txt is shown. *)
Lemma C1_witness :
  activeFile (state (run (rt := sample_runtime)
    [Call_selectFile "a.txt"; Call_selectFile "b.txt";
     FetchSettles 0 (Response 200 (inl (VObj [("content", VStr "A")])))] w0))
  = Some {| ActiveFile.path := "a.txt"; ActiveFile.content := VStr "A";
            ActiveFile.loading := false |}.
Proof.
  refine (proj2 (C1_stale_success_overwrites (rt := sample_runtime)
                   w0 "a.txt" "b.txt" "A" "" _ _ _ _));
    [discriminate | discriminate | discriminate | reflexivity].
Defined.

(** The frame [null] throws; the observation frame without content puts
    [undefined] in the chat. *)
Lemma C2_witness :
  fst (handleEvent (rt := sample_runtime) "null" w0) = Throw TypeError /\
  chat (snd (handleEvent (rt := sample_runtime) (print frame_observation) w0))
    = [(agent, VUndefined)].
Proof.
  destruct (C2_dispatch_not_defensive (rt := sample_runtime)
              "null" (print frame_observation)
              [("type", VStr "observation"); ("event", VStr "agent_message");
               ("message", VStr "hi")] w0
              eq_refl eq_refl eq_refl eq_refl eq_refl) as (H1 & _ & H2).
  split; [exact H1 | exact H2].
Defined.

(** C3 as the claim states it fails: the first attempt fails, a retry is
    scheduled, the user stops the session, the timer fires; the session
    is then connecting on a second socket, not idle. *)
Lemma C3_counterexample :
  let before := run (rt := sample_runtime)
                  [Call_startSession (Some "fix the bug"); WsError 0;
                   WsClose 0 1006 ""; Call_stopSession] w0 in
  let after := step (rt := sample_runtime) (TimeoutFires 0) before in
  timeouts (browser before) = [retry (Some "fix the bug")] /\
  status (state before) = st_idle /\
  List.length (sockets (browser before)) = 1 /\
  status (state after) = st_connecting /\
  List.length (sockets (browser after)) = 2 /\
  readyState_of after 1 = Some CONNECTING.
Proof. vm_compute. repeat split. Qed.

Lemma C3_witness :
  let w := run (rt := sample_runtime)
             [Call_startSession (Some "fix the bug"); WsError 0;
              WsClose 0 1006 ""] w0 in
  let w2 := run (rt := sample_runtime) [Call_stopSession; TimeoutFires 0] w in
  timeouts (browser w) !! 0 = Some (retry (Some "fix the bug")) /\
  status (state w2) = st_connecting /\
  wsRef (refs w2) = Some 1.
Proof.
  intros w w2.
  destruct (C3_stop_does_not_cancel_reconnect (rt := sample_runtime)
              w 0 (retry (Some "fix the bug")) eq_refl)
    as (_ & (H1 & _ & H2 & _) & _).
  split; [reflexivity | split; [exact H1 | exact H2]].
Defined.

Lemma C4_witness :
  let w1 := run (rt := sample_runtime)
              (Call_startSession (Some "fix the bug")
               :: attempt_fails 0 1006 "") w0 in
  let w2 := run (rt := sample_runtime)
              (TimeoutFires 0 :: attempt_fails 1 1006 "") w1 in
  let w3 := run (rt := sample_runtime)
              (TimeoutFires 0 :: attempt_fails 2 1006 "") w2 in
  let w4 := run (rt := sample_runtime)
              (TimeoutFires 0 :: attempt_fails 3 1006 "") w3 in
  normal_close 1006 = false /\
  timeouts (browser w4) = [] /\
  List.length (sockets (browser w4)) = 4 /\
  status (state w4) = st_error /\
  error (state w4) = VStr "Connection lost after multiple attempts.".
Proof.
  intros w1 w2 w3 w4.
  destruct (C4_three_reconnects_then_error (rt := sample_runtime)
              w0 (Some "fix the bug") 1006 1006 1006 1006 "" "" "" ""
              (List.Forall_nil _) eq_refl eq_refl eq_refl eq_refl eq_refl
              eq_refl)
    as (_ & H & _).
  split; [reflexivity | exact H].
Defined.

Lemma tree_one_is_tree : is_tree tree_one 3.
Proof.
  apply (tree_dir _ [VObj [("name", VStr "main.py"); ("type", VStr "file")]]
           _ 1 1).
  - reflexivity.
  - apply (tree_file _ [] 0); [reflexivity | constructor].
  - apply (tree_file _ [] 0); [reflexivity | constructor].
Defined.

Lemma tree_two_is_tree : is_tree tree_two 1.
Proof. apply (tree_file _ [] 0); [reflexivity | constructor]. Defined.

Lemma C5_witness :
  let w := dispatch_all (rt := sample_runtime)
             [print (frame_file_tree tree_one);
              print (frame_file_tree tree_two)] w0 in
  fileTree (state w) = tree_two /\
  log_contents w = [file_tree_summary 3; file_tree_summary 1].
Proof.
  intros w.
  destruct (C5_file_tree_replaced_wholesale (rt := sample_runtime))
    as (Hreplace & Hlog).
  split.
  - apply (Hreplace [(print (frame_file_tree tree_one), tree_one);
                     (print (frame_file_tree tree_two), tree_two)] w0).
    repeat constructor; eexists; repeat split; reflexivity.
  - apply (Hlog [(print (frame_file_tree tree_one), (tree_one, 3));
                 (print (frame_file_tree tree_two), (tree_two, 1))] w0).
    constructor; [|constructor; [|constructor]].
    + split; [eexists; repeat split; reflexivity | exact tree_one_is_tree].
    + split; [eexists; repeat split; reflexivity | exact tree_two_is_tree].
Defined.

Lemma C6_witness :
  let once := snd (handleEvent (rt := sample_runtime)
                     (print (frame_file_change "src/main.py")) w0) in
  let twice := snd (handleEvent (rt := sample_runtime)
                      (print (frame_file_change "src/main.py")) once) in
  files (state once) = [VStr "src/main.py"] /\
  files (state twice) = files (state once).
Proof.
  intros once twice.
  destruct (C6_single_path_is_set_insertion (rt := sample_runtime)
              (print (frame_file_change "src/main.py")) "src/main.py" w0)
    as (_ & _ & H1 & H2).
  - eexists. repeat split; [reflexivity .. | discriminate].
  - split; [apply H1; intros [] | exact H2].
Defined.

Lemma C7_witness :
  let w3 := run (rt := sample_runtime)
              [Call_startSession (Some "fix the bug"); WsOpen 0;
               WsMessage 0 (print frame_status_ready)] w0 in
  status (state w3) = st_connected /\
  chat w3 = [(user, VStr "fix the bug"); (system, VStr "Agent is ready.")] /\
  sessionIdRef (refs w3) = VStr "s1".
Proof.
  intros w3.
  destruct (C7_start_handshake_ready (rt := sample_runtime)
              w0 "fix the bug" (print frame_status_ready) "src/main.py")
    as (_ & _ & H1 & H2 & H3 & _);
    [reflexivity | reflexivity | discriminate | discriminate | reflexivity |].
  split; [exact H1 | split; [exact H2 | exact H3]].
Defined.

(** C8 as the claim states it fails for the empty message: the frame
    [{type:"error", message:""}] records "Unknown error", not the
    message. *)
Lemma C8_counterexample :
  let w := snd (handleEvent (rt := sample_runtime)
                  (print (frame_error "")) w0) in
  sample_parse (print (frame_error "")) = Some (frame_error "") /\
  error (state w) = VStr "Unknown error" /\
  error (state w) <> VStr "".
Proof. vm_compute. repeat split. discriminate. Qed.

Lemma C8_witness :
  let w := snd (handleEvent (rt := sample_runtime)
                  (print (frame_error "OOM")) w0) in
  status (state w) = st_error /\ error (state w) = VStr "OOM".
Proof.
  intros w.
  destruct (C8_error_frame_surfaces (rt := sample_runtime)
              (print (frame_error "OOM"))
              [("type", VStr "error"); ("message", VStr "OOM")] "OOM" w0
              eq_refl eq_refl eq_refl)
    as (_ & _ & H1 & H2 & _).
  split; [exact H1 | exact H2].
Defined.

Lemma C9_witness :
  let w := run (rt := sample_runtime)
             [Call_startSession (Some "fix the bug"); WsOpen 0] w0 in
  let w' := step (rt := sample_runtime) (WsClose 0 4001 "policy") w in
  In 4001%Z [1000; 4001; 4010]%Z /\
  status (state w') = st_idle /\ timeouts (browser w') = [].
Proof.
  intros w w'.
  assert (Hin : In 4001%Z [1000; 4001; 4010]%Z) by (right; left; reflexivity).
  destruct (C9_normal_close_goes_idle (rt := sample_runtime) w 0
              {| WebSocket.url := "ws://localhost:8000/ws";
                 WebSocket.readyState := OPEN;
                 WebSocket.sent := [print (handshake w0 (Some "fix the bug"))];
                 WebSocket.closeCall := None;
                 WebSocket.initialTask := Some "fix the bug" |}
              4001 "policy" eq_refl ltac:(discriminate) Hin)
    as (H1 & H2 & _).
  split; [exact Hin | split; [exact H1 | exact H2]].
Defined.

(** ** Further runs *)

(** A tree with a [null] node: the projection is replaced, then the
    count raises and no terminal line is written. *)
Example file_tree_with_null_node :
  let r := handleEvent (rt := sample_runtime)
             (print (frame_file_tree [VNull])) w0 in
  fst r = Throw TypeError /\
  fileTree (state (snd r)) = [VNull] /\
  log_contents (snd r) = [].
Proof. vm_compute. repeat split. Qed.

(** An empty [path] counts as no path: nothing is appended. *)
Example empty_path_is_no_path :
  let r := handleEvent (rt := sample_runtime)
             (print (frame_file_change "")) w0 in
  fst r = Ok tt /\
  files (state (snd r)) = [] /\
  log_contents (snd r) = [VStr "📝 File changed: unknown"].
Proof. vm_compute. repeat split. Qed.

(** An agent event with a command and a content: both reach the
    terminal, in that order, and the content reaches the chat. *)
Example agent_event_fans_out :
  let r := handleEvent (rt := sample_runtime) (print frame_agent_event) w0 in
  fst r = Ok tt /\
  log_contents (snd r) = [VStr "$ npm install"; VStr "Installing deps"] /\
  chat (snd r) = [(agent, VStr "Installing deps")].
Proof. vm_compute. repeat split. Qed.

(** * The rest of the hook, and the page that uses it

    What follows covers [sendMessage], the heartbeat, the unmount
    cleanup, the remaining cases of [handleEvent] and of [selectFile],
    and the invariants the hook keeps over every run. *)

(** ** [trim] *)










(** ** What every handler respects

    Every handler of the hook is a composition of a few updates.  A
    relation between the state before and the state after that is
    reflexive, transitive and holds across each of these updates holds
    across every handler, every event and every run. *)

Lemma or_else_truthy x y : truthy y = true -> truthy (or_else x y) = true.
Proof. intros H. unfold or_else. destruct (truthy x) eqn:E; assumption. Qed.

Section Respects.
Context {rt : Runtime}.
Variable R : World -> World -> Prop.
Hypothesis R_refl : forall w, R w w.
Hypothesis R_trans : forall w1 w2 w3, R w1 w2 -> R w2 w3 -> R w1 w3.

Lemma respects_ret {A} (a : A) : respects R (ret a).
Proof. intros w. apply R_refl. Qed.

Lemma respects_lift {A} (r : Res A) : respects R (lift r).
Proof. intros w. apply R_refl. Qed.

Lemma respects_upd f : (forall w, R w (f w)) -> respects R (upd f).
Proof. intros H w. apply H. Qed.

Lemma respects_bind {A B} (m : M A) (k : A -> M B) :
  respects R m -> (forall a, respects R (k a)) -> respects R (bind m k).
Proof.
  intros Hm Hk w. unfold bind. specialize (Hm w).
  destruct (m w) as [[a|e] w1]; cbn [snd] in *; [|assumption].
  eapply R_trans; [eassumption | apply Hk].
Qed.

Lemma respects_when b m : respects R m -> respects R (when b m).
Proof. intros H. destruct b; [assumption | apply respects_ret]. Qed.

Lemma respects_try_catch body handler :
  respects R body -> (forall e, respects R (handler e)) ->
  respects R (try_catch body handler).
Proof.
  intros Hb Hh w. unfold try_catch. specialize (Hb w).
  destruct (body w) as [[a|e] w1]; cbn [snd] in *; [assumption|].
  eapply R_trans; [eassumption | apply Hh].
Qed.

(** *** [connect], from its updates *)
Section Connect.
Hypothesis R_pushLog : forall c w, R w (pushLog c w).
Hypothesis R_setStatus : forall v w, R w (setStatus v w).
Hypothesis R_setError : forall v w, R w (setError v w).
Hypothesis R_wsRef : forall v w, R w (set_wsRef v w).
Hypothesis R_socket_new :
  forall ws w, R w (with_sockets (fun l => l ++ [ws]) w).

Lemma connect_respects task w : R w (connect task w).
Proof.
  unfold connect. cbv zeta. destruct (live w); [apply R_refl|].
  eapply R_trans; [|apply R_wsRef].
  eapply R_trans; [|apply R_socket_new].
  eapply R_trans; [|apply R_pushLog].
  eapply R_trans; [|apply R_setError].
  apply R_setStatus.
Qed.
End Connect.

(** *** [selectFile], from its updates *)
Section Files.
Hypothesis R_pushLog : forall c w, R w (pushLog c w).
Hypothesis R_setActiveFile : forall f w, R w (setActiveFile f w).
Hypothesis R_fetches : forall f w, R w (with_fetches f w).

Lemma selectFile_catch_respects path e : respects R (selectFile_catch path e).
Proof.
  unfold selectFile_catch.
  apply respects_bind; [|intros _]; apply respects_upd;
    [apply R_pushLog | apply R_setActiveFile].
Qed.

Lemma selectFile_respects path : respects R (selectFile path).
Proof.
  unfold selectFile. destruct (path =? ""); [apply respects_ret|].
  apply respects_bind; [apply respects_upd, R_setActiveFile | intros _].
  apply respects_try_catch; [| apply selectFile_catch_respects].
  intros w. cbv beta zeta. unfold bind, lift.
  destruct (toString _); cbn [snd]; [apply R_fetches | apply R_refl].
Qed.

Lemma selectFile_resume_respects path o :
  respects R (selectFile_resume path o).
Proof.
  unfold selectFile_resume.
  apply respects_try_catch; [| apply selectFile_catch_respects].
  destruct o as [m|status body]; [apply respects_lift|].
  destruct (negb (res_ok status)).
  - apply respects_bind; [apply respects_lift | intros detail].
    apply respects_bind; apply respects_lift || (intros ?; apply respects_lift).
  - destruct body as [data|m]; [|apply respects_lift].
    apply respects_bind; [apply respects_lift | intros content].
    apply respects_upd, R_setActiveFile.
Qed.

End Files.

(** *** The handlers and the event loop *)
Section Frame.
Hypothesis R_pushLog : forall c w, R w (pushLog c w).
Hypothesis R_pushMessage : forall k c w, R w (pushMessage k c w).
Hypothesis R_setStatus : forall v w, R w (setStatus v w).
Hypothesis R_setError : forall v w, truthy v = true -> R w (setError v w).
Hypothesis R_setFiles : forall f w, R w (setFiles f w).
Hypothesis R_setFileTree : forall v w, R w (setFileTree v w).
Hypothesis R_sessionIdRef : forall v w, R w (set_sessionIdRef v w).
Hypothesis R_wsRef : forall v w, R w (set_wsRef v w).
Hypothesis R_stopHeartbeat : forall w, R w (stopHeartbeat w).
Hypothesis R_reset : forall w, R w (set_reconnectCount 0 w).
Hypothesis R_count :
  forall w, (reconnectCount (refs w) <? MAX_RECONNECTS)%nat = true ->
            R w (set_reconnectCount (S (reconnectCount (refs w))) w).
Hypothesis R_retry :
  forall t w, R w (with_timeouts (fun l => l ++ [retry t]) w).
Hypothesis R_fired : forall k w, R w (with_timeouts (delete k) w).
Hypothesis R_connect : forall task w, R w (connect task w).
Hypothesis R_open :
  forall i ws w,
    sockets (browser w) !! i = Some ws ->
    WebSocket.readyState ws = CONNECTING ->
    R w (onopen i (WebSocket.initialTask ws)
           (with_socket i (set_readyState OPEN) w)).
Hypothesis R_send :
  forall i v w,
    ready_is w i OPEN = true -> Follow_up v ->
    R w (ws_send i (JSON_stringify v) w).
Hypothesis R_close : forall i code reason w, R w (ws_close i code reason w).
Hypothesis R_closed : forall i w, R w (with_socket i (set_readyState CLOSED) w).
Hypothesis R_selectFile : forall path w, R w (snd (selectFile path w)).
Hypothesis R_settle :
  forall k f o w,
    fetches (browser w) !! k = Some f ->
    R w (snd (selectFile_resume (fpath f) o (with_fetches (delete k) w))).

Ltac respects_step :=
  first
    [ apply respects_ret
    | apply respects_lift
    | apply respects_upd;
      first [ apply R_pushLog | apply R_pushMessage | apply R_setStatus
            | intros ?; apply R_setError, or_else_truthy; reflexivity
            | apply R_setFiles | apply R_setFileTree | apply R_sessionIdRef ]
    | apply respects_when
    | apply respects_bind; [|intros ?]
    | match goal with
      | |- respects R (if ?b then _ else _) => destruct b
      | |- respects R (match ?x with _ => _ end) => destruct x
      end ].

Lemma handleEvent_respects raw : respects R (handleEvent raw).
Proof. unfold handleEvent. destruct (JSON_parse raw); repeat respects_step. Qed.

(** The handlers that are plain state updates: peel the updates off
    from the outside. *)
Ltac peel :=
  repeat match goal with
  | |- R ?a ?a => apply R_refl
  | |- R _ (if ?b then _ else _) => destruct b eqn:?
  | |- R _ (match ?x with _ => _ end) => destruct x eqn:?
  | |- R _ (pushLog _ _) => eapply R_trans; [|apply R_pushLog]
  | |- R _ (pushMessage _ _ _) => eapply R_trans; [|apply R_pushMessage]
  | |- R _ (setStatus _ _) => eapply R_trans; [|apply R_setStatus]
  | |- R _ (setError _ _) =>
      eapply R_trans; [|apply R_setError; reflexivity]
  | |- R _ (set_wsRef _ _) => eapply R_trans; [|apply R_wsRef]
  | |- R _ (ws_send _ _ _) =>
      eapply R_trans; [|apply R_send; [assumption | constructor]]
  | |- R _ (ws_close _ _ _ _) => eapply R_trans; [|apply R_close]
  | |- R _ (stopHeartbeat _) => eapply R_trans; [|apply R_stopHeartbeat]
  | |- R _ (set_reconnectCount 0 _) => eapply R_trans; [|apply R_reset]
  | |- R _ (set_reconnectCount (S _) _) =>
      eapply R_trans; [|apply R_count; assumption]
  | |- R _ (with_timeouts (delete _) _) => eapply R_trans; [|apply R_fired]
  | |- R _ (with_timeouts _ _) => eapply R_trans; [|apply (R_retry _)]
  end.

Lemma onclose_respects task code reason w : R w (onclose task code reason w).
Proof. unfold onclose. cbv zeta. peel. Qed.

Lemma sendMessageInternal_respects text w : R w (sendMessageInternal text w).
Proof. unfold sendMessageInternal. cbv zeta. peel. Qed.

Lemma startSession_respects task w : R w (startSession task w).
Proof.
  unfold startSession. destruct (wsRef_open w).
  - destruct (task_truthy task);
      [apply sendMessageInternal_respects | apply R_refl].
  - eapply R_trans; [|apply R_connect].
    destruct (task_truthy task); [apply R_pushMessage | apply R_refl].
Qed.

Lemma stopSession_respects w : R w (stopSession w).
Proof. unfold stopSession. cbv zeta. peel. Qed.

Lemma unmount_respects w : R w (unmount w).
Proof. unfold unmount. cbv zeta. peel. Qed.

Lemma heartbeat_tick_respects w : R w (heartbeat_tick w).
Proof. unfold heartbeat_tick. peel. Qed.

Lemma step_respects ev w : R w (step ev w).
Proof.
  destruct ev as [task| |path| |i|i data|i|i code reason|k|id|k o];
    cbn [step].
  - apply startSession_respects.
  - apply stopSession_respects.
  - apply R_selectFile.
  - apply unmount_respects.
  - destruct (sockets (browser w) !! i) as [ws|] eqn:Hi; [|apply R_refl].
    destruct (WebSocket.readyState ws) eqn:Hc; try apply R_refl.
    apply R_open; assumption.
  - destruct (ready_is w i OPEN); [apply handleEvent_respects | apply R_refl].
  - destruct (readyState_of w i) as [[]|]; try apply R_refl; apply R_pushLog.
  - destruct (sockets (browser w) !! i) as [ws|]; [|apply R_refl].
    destruct (WebSocket.readyState ws); try apply R_refl;
      (eapply R_trans; [apply R_closed | apply onclose_respects]).
  - destruct (timeouts (browser w) !! k) as [t|]; [|apply R_refl].
    eapply R_trans; [apply R_fired | apply R_connect].
  - destruct (existsb _ _); [apply heartbeat_tick_respects | apply R_refl].
  - destruct (fetches (browser w) !! k) as [f|] eqn:E; [|apply R_refl].
    apply R_settle, E.
Qed.

Lemma run_respects evs w : R w (run evs w).
Proof.
  revert w. induction evs as [|ev evs IH]; intros w; [apply R_refl|].
  cbn [run fold_left]. eapply R_trans; [apply step_respects | apply IH].
Qed.

Lemma sendMessage_respects text w : R w (sendMessage text w).
Proof.
  unfold sendMessage. destruct text as [text|]; [|apply R_refl].
  destruct (trim text =? ""); [apply R_refl|].
  destruct (negb (wsRef_open w));
    [apply startSession_respects | apply sendMessageInternal_respects].
Qed.

End Frame.

(** *** All of it, from the updates alone *)
Section Updates.
Hypothesis R_pushLog : forall c w, R w (pushLog c w).
Hypothesis R_pushMessage : forall k c w, R w (pushMessage k c w).
Hypothesis R_setStatus : forall v w, R w (setStatus v w).
Hypothesis R_setError : forall v w, R w (setError v w).
Hypothesis R_setFiles : forall f w, R w (setFiles f w).
Hypothesis R_setFileTree : forall v w, R w (setFileTree v w).
Hypothesis R_setActiveFile : forall f w, R w (setActiveFile f w).
Hypothesis R_sessionIdRef : forall v w, R w (set_sessionIdRef v w).
Hypothesis R_fetches : forall f w, R w (with_fetches f w).
Hypothesis R_wsRef : forall v w, R w (set_wsRef v w).
Hypothesis R_socket : forall i f w, R w (with_socket i f w).
Hypothesis R_socket_new :
  forall ws w, R w (with_sockets (fun l => l ++ [ws]) w).
Hypothesis R_stopHeartbeat : forall w, R w (stopHeartbeat w).
Hypothesis R_startHeartbeat : forall w, R w (startHeartbeat w).
Hypothesis R_reset : forall w, R w (set_reconnectCount 0 w).
Hypothesis R_count :
  forall w, (reconnectCount (refs w) <? MAX_RECONNECTS)%nat = true ->
            R w (set_reconnectCount (S (reconnectCount (refs w))) w).
Hypothesis R_retry :
  forall t w, R w (with_timeouts (fun l => l ++ [retry t]) w).
Hypothesis R_fired : forall k w, R w (with_timeouts (delete k) w).

Lemma open_from_updates i task w :
  R w (onopen i task (with_socket i (set_readyState OPEN) w)).
Proof.
  eapply R_trans; [apply R_socket|]. unfold onopen, ws_send. cbv zeta.
  destruct (task_truthy task); [eapply R_trans; [|apply R_pushLog]|];
    (eapply R_trans; [|apply R_socket]);
    (eapply R_trans; [|apply R_startHeartbeat]);
    (eapply R_trans; [|apply R_pushLog]);
    (eapply R_trans; [|apply R_reset]);
    apply R_setStatus.
Qed.

Lemma settle_from_updates k f o w :
  fetches (browser w) !! k = Some f ->
  R w (snd (selectFile_resume (fpath f) o (with_fetches (delete k) w))).
Proof.
  intros _. eapply R_trans; [apply R_fetches|].
  apply selectFile_resume_respects; assumption.
Qed.

Lemma run_from_updates evs w : R w (run evs w).
Proof.
  apply run_respects;
    auto using connect_respects, settle_from_updates, open_from_updates.
  - intros i v x _ _. apply R_socket.
  - intros i code reason x. apply R_socket.
  - intros path x. apply selectFile_respects; assumption.
Qed.

Lemma sendMessage_from_updates text w : R w (sendMessage text w).
Proof.
  apply sendMessage_respects; auto using connect_respects.
  intros i v x _ _. apply R_socket.
Qed.

End Updates.
End Respects.

(** ** Decimal text and ids *)

Lemma append_nil_l s : "" +:+ s = s.
Proof. reflexivity. Qed.

Lemma append_cons a s t : String a s +:+ t = String a (s +:+ t).
Proof. reflexivity. Qed.

Lemma dec_inj a b : dec a = dec b -> a = b.
Proof.
  assert (Hnil : forall z, Z.to_int z <> Decimal.Pos Decimal.Nil /\
                           Z.to_int z <> Decimal.Neg Decimal.Nil).
  { intros [|p|p]; cbn; split; try discriminate;
      intros E; injection E; apply DecimalPos.Unsigned.to_uint_nonnil. }
  unfold dec. intros H. apply (f_equal NilZero.int_of_string) in H.
  rewrite !NilZero.isi in H by apply Hnil.
  injection H as H. apply (f_equal Z.of_int) in H.
  now rewrite !DecimalZ.of_to in H.
Qed.

Lemma digits_no_underscore d :
  ~ In "_"%char (list_ascii_of_string (NilEmpty.string_of_uint d)).
Proof.
  induction d; cbn; intros H; try destruct H as [H|H];
    try discriminate; auto.
Qed.

Lemma dec_no_underscore z : ~ In "_"%char (list_ascii_of_string (dec z)).
Proof.
  assert (Hu : forall d,
             ~ In "_"%char (list_ascii_of_string (NilZero.string_of_uint d))).
  { intros d. destruct d; try apply digits_no_underscore.
    cbn. intros [H|[]]. discriminate. }
  unfold dec. destruct (Z.to_int z) as [d|d]; cbn.
  - apply Hu.
  - intros [H|H]; [discriminate | exact (Hu d H)].
Qed.

(** A text is cut at the first occurrence of a character in one way
    only. *)
Lemma append_split c s1 : forall s2 r1 r2,
  ~ In c (list_ascii_of_string s1) ->
  ~ In c (list_ascii_of_string s2) ->
  s1 +:+ String c r1 = s2 +:+ String c r2 ->
  s1 = s2 /\ r1 = r2.
Proof.
  induction s1 as [|a s1 IH]; intros [|b s2] r1 r2 H1 H2;
    rewrite ?append_nil_l, ?append_cons; intros E.
  - injection E as E. auto.
  - injection E as E1 E2. subst b. destruct H2. now left.
  - injection E as E1 E2. subst a. destruct H1. now left.
  - injection E as E1 E2. subst b.
    destruct (IH s2 r1 r2) as [-> ->]; auto.
    + intros H. apply H1. now right.
    + intros H. apply H2. now right.
Qed.

Lemma stamp_inj t n t' n' : stamp t n = stamp t' n' -> n = n'.
Proof.
  unfold stamp. rewrite !append_cons, !append_nil_l. intros E.
  injection E as E.
  apply append_split in E; try apply dec_no_underscore.
  destruct E as [_ E]. apply dec_inj in E. lia.
Qed.

Lemma stamped_NoDup l ns : Forall2 stamped l ns -> NoDup ns -> NoDup l.
Proof.
  induction 1 as [|id n l ns [t ->] HF IH]; intros Hn; [constructor|].
  apply NoDup_cons in Hn. destruct Hn as [Hnot Hn].
  apply NoDup_cons. split; [|auto].
  intros Hin. apply Hnot.
  apply list_elem_of_lookup in Hin. destruct Hin as [i Hi].
  destruct (Forall2_lookup_l _ _ _ _ _ HF Hi) as (n' & Hn' & [t' E]).
  apply stamp_inj in E. subst n'.
  apply list_elem_of_lookup. eauto.
Qed.

Section More.
Context {rt : Runtime}.


(** ** Relations and invariants the updates keep *)

(** *** The chat and the terminal only grow *)

Lemma grows_refl w : grows w w.
Proof. split; reflexivity. Qed.

Lemma grows_trans w1 w2 w3 : grows w1 w2 -> grows w2 w3 -> grows w1 w3.
Proof. intros [A B] [C D]. split; etrans; eassumption. Qed.

Lemma grows_same w w' : state w' = state w -> grows w w'.
Proof. intros E. unfold grows. rewrite E. split; reflexivity. Qed.

Lemma grows_pushLog c w : grows w (pushLog c w).
Proof. split; cbn; [reflexivity | apply prefix_app_r; reflexivity]. Qed.

Lemma grows_pushMessage k c w : grows w (pushMessage k c w).
Proof. split; cbn; [apply prefix_app_r; reflexivity | reflexivity]. Qed.

Lemma grows_stopHeartbeat w : grows w (stopHeartbeat w).
Proof.
  destruct (stopHeartbeat_shape w) as (h & f & ->). apply grows_same. reflexivity.
Qed.

Lemma grows_startHeartbeat w : grows w (startHeartbeat w).
Proof.
  destruct (startHeartbeat_shape w) as (h & n & f & ->). apply grows_same.
  reflexivity.
Qed.

Ltac grows_atom :=
  first [ apply grows_refl | apply grows_pushLog | apply grows_pushMessage
        | apply grows_stopHeartbeat | apply grows_startHeartbeat
        | split; reflexivity ].

Lemma run_grows evs w : grows w (run evs w).
Proof.
  apply run_from_updates; intros;
    first [ eapply grows_trans; eassumption | grows_atom ].
Qed.


Lemma sendMessage_grows text w : grows w (sendMessage text w).
Proof.
  apply sendMessage_from_updates; intros;
    first [ eapply grows_trans; eassumption | grows_atom ].
Qed.

(** *** The keep-alive timer *)

Lemma preserves_refl I w : preserves I w w.
Proof. intros H. exact H. Qed.

Lemma preserves_trans I w1 w2 w3 :
  preserves I w1 w2 -> preserves I w2 w3 -> preserves I w1 w3.
Proof. intros A B H. apply B, A, H. Qed.

Lemma heartbeat_ok_stop w : heartbeat_ok w -> heartbeat_ok (stopHeartbeat w).
Proof.
  destruct w as [s [ws hb rc ic sid] [so ti iv ni fe cl sp] p t].
  unfold heartbeat_ok, stopHeartbeat. cbn. intros [Hn H].
  destruct hb as [id|]; [|auto].
  destruct H as [Hid ->]. destruct (Nat.eqb_spec id 0) as [->|_]; [lia|].
  cbn. rewrite Nat.eqb_refl. cbn. auto.
Qed.

Lemma heartbeat_stop_clears w :
  heartbeat_ok w ->
  heartbeatRef (refs (stopHeartbeat w)) = None /\
  intervals (browser (stopHeartbeat w)) = [].
Proof.
  destruct w as [s [ws hb rc ic sid] [so ti iv ni fe cl sp] p t].
  unfold heartbeat_ok, stopHeartbeat. cbn. intros [Hn H].
  destruct hb as [id|]; [|auto].
  destruct H as [Hid ->]. destruct (Nat.eqb_spec id 0) as [->|_]; [lia|].
  cbn. rewrite Nat.eqb_refl. cbn. auto.
Qed.

Lemma heartbeat_ok_start w : heartbeat_ok w -> heartbeat_ok (startHeartbeat w).
Proof.
  intros H. pose proof (heartbeat_ok_stop w H) as [Hn _].
  destruct (heartbeat_stop_clears w H) as [_ Hi].
  unfold startHeartbeat, heartbeat_ok. cbn. rewrite Hi. cbn.
  repeat split; lia.
Qed.

Ltac heartbeat_atom :=
  first [ let H := fresh in intros H; exact H
        | intros ?; apply heartbeat_ok_stop; assumption
        | intros ?; apply heartbeat_ok_start; assumption ].

Lemma run_heartbeat_ok evs w : heartbeat_ok w -> heartbeat_ok (run evs w).
Proof.
  apply (run_from_updates (preserves heartbeat_ok)); intros;
    first [ eapply preserves_trans; eassumption | heartbeat_atom ].
Qed.

(** *** The retry budget *)

Lemma budget_ok_stop w : budget_ok w -> budget_ok (stopHeartbeat w).
Proof. destruct (stopHeartbeat_shape w) as (h & f & ->). intros H. exact H. Qed.

Lemma budget_ok_start w : budget_ok w -> budget_ok (startHeartbeat w).
Proof.
  destruct (startHeartbeat_shape w) as (h & n & f & ->). intros H. exact H.
Qed.

Lemma budget_ok_reset w : budget_ok w -> budget_ok (set_reconnectCount 0 w).
Proof. intros [_ H]. split; [cbn; unfold MAX_RECONNECTS; lia | exact H]. Qed.

Lemma budget_ok_count w :
  (reconnectCount (refs w) <? MAX_RECONNECTS)%nat = true ->
  budget_ok w -> budget_ok (set_reconnectCount (S (reconnectCount (refs w))) w).
Proof.
  intros Hlt [_ H]. split; [|exact H]. cbn. apply Nat.ltb_lt in Hlt. lia.
Qed.

Lemma budget_ok_retry t w :
  budget_ok w -> budget_ok (with_timeouts (fun l => l ++ [retry t]) w).
Proof.
  intros [Hc H]. split; [exact Hc|]. cbn. apply Forall_app. split; [exact H|].
  repeat constructor.
Qed.

Lemma budget_ok_fired k w :
  budget_ok w -> budget_ok (with_timeouts (delete k) w).
Proof. intros [Hc H]. split; [exact Hc|]. cbn. apply Forall_delete, H. Qed.

Ltac budget_atom :=
  unfold preserves;
  first [ let H := fresh in intros H; exact H
        | apply budget_ok_stop | apply budget_ok_start | apply budget_ok_reset
        | apply budget_ok_count; assumption
        | apply budget_ok_retry | apply budget_ok_fired ].

Lemma run_budget_ok evs w : budget_ok w -> budget_ok (run evs w).
Proof.
  apply (run_from_updates (preserves budget_ok)); intros;
    first [ eapply preserves_trans; eassumption | budget_atom ].
Qed.

(** ** Sending a message *)









(** ** What holds in every state the hook can reach *)

(** X5.  The chat and the terminal are append-only: whatever happens
    (calls, socket events, timers, settled fetches, frames of any
    content), the messages and log lines already shown stay where
    they are and new ones are added at the end. *)
Theorem chat_and_terminal_are_append_only evs text w :
  grows w (run evs w) /\ grows w (sendMessage text w).
Proof.
  split; [apply run_grows | apply sendMessage_grows].
Qed.

Lemma heartbeat_ok_initial p t s : heartbeat_ok (initial_world p t s).
Proof. split; [cbn; lia | reflexivity]. Qed.

Lemma heartbeat_ok_intervals w :
  heartbeat_ok w ->
  intervals (browser w)
  = match heartbeatRef (refs w) with
    | Some id => [(id, HEARTBEAT_INTERVAL_MS)]
    | None => []
    end.
Proof. intros [_ H]. destruct (heartbeatRef (refs w)); [apply H | exact H]. Qed.

(** X6.  At most one keep-alive timer is live, the one [heartbeatRef]
    holds, in every state the hook can reach; and none is left after
    [stopSession], after the unmount cleanup, or after a socket has
    closed. *)
Theorem at_most_one_heartbeat projectId token stored evs :
  let w := run evs (initial_world projectId token stored) in
  intervals (browser w)
  = match heartbeatRef (refs w) with
    | Some id => [(id, HEARTBEAT_INTERVAL_MS)]
    | None => []
    end /\
  intervals (browser (step Call_stopSession w)) = [] /\
  intervals (browser (step Unmount w)) = [] /\
  (forall i ws code reason,
      sockets (browser w) !! i = Some ws ->
      WebSocket.readyState ws <> CLOSED ->
      intervals (browser (step (WsClose i code reason) w)) = []).
Proof.
  intros w.
  assert (H : heartbeat_ok w)
    by apply run_heartbeat_ok, heartbeat_ok_initial.
  split; [apply heartbeat_ok_intervals, H|].
  assert (Stop : forall x, heartbeat_ok x ->
            heartbeatRef (refs x) = None -> intervals (browser x) = []).
  { intros x Hx E. rewrite (heartbeat_ok_intervals x Hx), E. reflexivity. }
  repeat split.
  - apply Stop.
    + apply (run_heartbeat_ok [Call_stopSession] w H).
    + cbn [step]. unfold stopSession. cbv zeta.
      destruct (heartbeat_stop_clears w H) as [E _].
      destruct (wsRef (refs (stopHeartbeat w))); cbn; exact E.
  - apply Stop.
    + apply (run_heartbeat_ok [Unmount] w H).
    + cbn [step]. unfold unmount. cbv zeta.
      destruct (heartbeat_stop_clears w H) as [E _].
      destruct (wsRef (refs (stopHeartbeat w))); cbn; exact E.
  - intros i ws code reason Hi Hc. apply Stop.
    + apply (run_heartbeat_ok [WsClose i code reason] w H).
    + cbn [step]. rewrite Hi.
      set (x := with_socket i (set_readyState CLOSED) w).
      assert (Hx : heartbeat_ok (set_wsRef None x)) by exact H.
      destruct (heartbeat_stop_clears _ Hx) as [E _].
      assert (G : heartbeatRef (refs (onclose (WebSocket.initialTask ws) code reason x)) = None).
      { unfold onclose. cbv zeta.
        destruct (normal_close code); [exact E|].
        destruct (_ <? _)%nat; exact E. }
      destruct (WebSocket.readyState ws); try exact G. congruence.
Qed.

Lemma budget_ok_initial p t s : budget_ok (initial_world p t s).
Proof. split; [cbn; unfold MAX_RECONNECTS; lia | constructor]. Qed.

(** X7.  The retry counter never exceeds [MAX_RECONNECTS] and every
    pending reconnect timer waits 2000 ms, in every state the hook can
    reach: the back-off is flat and the budget is never overdrawn. *)
Theorem retry_budget_is_never_overdrawn projectId token stored evs :
  let w := run evs (initial_world projectId token stored) in
  reconnectCount (refs w) <= MAX_RECONNECTS /\
  Forall (fun t => delay t = 2000%Z) (timeouts (browser w)).
Proof. intros w. apply run_budget_ok, budget_ok_initial. Qed.

(** *** An error stays on display *)

Lemma error_kept_refl w : error_kept w w.
Proof. split; [lia | auto]. Qed.

Lemma error_kept_trans w1 w2 w3 :
  error_kept w1 w2 -> error_kept w2 w3 -> error_kept w1 w3.
Proof.
  intros [A1 B1] [A2 B2]. split; [lia|]. intros Ht El.
  apply B2; [apply B1|]; [assumption | lia | lia].
Qed.

Lemma error_kept_same w w' :
  sockets (browser w') = sockets (browser w) ->
  error (state w') = error (state w) ->
  error_kept w w'.
Proof. intros ES EE. unfold error_kept. rewrite ES, EE. split; [lia | auto]. Qed.

Lemma error_kept_socket i f w : error_kept w (with_socket i f w).
Proof.
  unfold error_kept. cbn.
  destruct (sockets (browser w) !! i); rewrite ?length_insert;
    (split; [lia | auto]).
Qed.

Lemma error_kept_connect task w : error_kept w (connect task w).
Proof.
  destruct (live w) eqn:L.
  - rewrite connect_live by assumption. apply error_kept_refl.
  - destruct (connect_not_live task w L) as (E & _).
    unfold error_kept. rewrite E, length_app. cbn. split; [lia | intros; lia].
Qed.

Lemma error_kept_stopHeartbeat w : error_kept w (stopHeartbeat w).
Proof.
  destruct (stopHeartbeat_shape w) as (h & f & ->).
  apply error_kept_same; reflexivity.
Qed.

Lemma error_kept_startHeartbeat w : error_kept w (startHeartbeat w).
Proof.
  destruct (startHeartbeat_shape w) as (h & n & f & ->).
  apply error_kept_same; reflexivity.
Qed.

Lemma error_kept_setError v w : truthy v = true -> error_kept w (setError v w).
Proof. intros H. split; [cbn; lia | intros; exact H]. Qed.

Lemma error_kept_open i task w :
  error_kept w (onopen i task (with_socket i (set_readyState OPEN) w)).
Proof.
  apply open_from_updates; intros;
    first [ eapply error_kept_trans; eassumption
          | apply error_kept_refl
          | apply error_kept_socket
          | apply error_kept_startHeartbeat
          | apply error_kept_same; reflexivity ].
Qed.

Lemma run_error_kept evs w : error_kept w (run evs w).
Proof.
  apply run_respects; intros;
    first [ eapply error_kept_trans; eassumption
          | apply error_kept_refl
          | apply error_kept_socket
          | unfold ws_send; apply error_kept_socket
          | unfold ws_close; apply error_kept_socket
          | apply error_kept_open
          | apply error_kept_connect
          | apply error_kept_stopHeartbeat
          | apply error_kept_startHeartbeat
          | apply error_kept_setError; assumption
          | apply error_kept_same; reflexivity
          | apply selectFile_respects; intros;
            first [ eapply error_kept_trans; eassumption
                  | apply error_kept_refl
                  | apply error_kept_same; reflexivity ]
          | apply settle_from_updates; intros;
            first [ eapply error_kept_trans; eassumption
                  | apply error_kept_refl
                  | assumption
                  | apply error_kept_same; reflexivity ] ].
Qed.

(** X8.  Once an error is recorded it stays on display until the next
    connection attempt: over any events that create no socket, the
    [error] of the hook stays set, and the badge of the page shows it
    in place of the status label (also after a [status] frame has
    made the status [connected] again, or after [stopSession]). *)
Theorem error_is_shown_until_the_next_connection evs w :
  truthy (error (state w)) = true ->
  let w' := run evs w in
  List.length (sockets (browser w')) = List.length (sockets (browser w)) ->
  truthy (error (state w')) = true /\
  ConnectionStatus_label (status (state w')) (error (state w'))
  = error (state w').
Proof.
  intros Ht w' El.
  assert (H : truthy (error (state w')) = true)
    by (apply (run_error_kept evs w); assumption).
  split; [exact H|]. unfold ConnectionStatus_label, or_else. now rewrite H.
Qed.

(** ** Stopping, unmounting, reconnecting *)

Lemma ws_close_sockets i ws code reason w :
  sockets (browser w) !! i = Some ws ->
  open_or_connecting ws ->
  sockets (browser (ws_close i code reason w))
  = <[i := closing code reason ws]> (sockets (browser w)).
Proof.
  intros Hi Ho. unfold ws_close. cbn. rewrite Hi.
  destruct Ho as [Ho|Ho]; rewrite Ho; reflexivity.
Qed.

(** X9.  [stopSession] and the unmount cleanup close the current socket
    with code 1000 and their own reason, without sending anything, and
    forget it.  [stopSession] makes the status [idle] and logs one
    line; it clears neither the chat nor the error, and a second
    [stopSession] changes nothing but the log.  The cleanup touches no
    state of the component at all. *)
Theorem stop_and_unmount_close_the_socket w i ws :
  wsRef (refs w) = Some i ->
  sockets (browser w) !! i = Some ws ->
  open_or_connecting ws ->
  let w1 := step Call_stopSession w in
  let w2 := step Call_stopSession w1 in
  let u := step Unmount w in
  (sockets (browser w1)
     = <[i := closing 1000 "User stopped session" ws]> (sockets (browser w)) /\
   wsRef (refs w1) = None /\
   status (state w1) = st_idle /\
   log_contents w1 = log_contents w ++ [VStr "🛑 Session stopped"] /\
   chat w1 = chat w /\ error (state w1) = error (state w)) /\
  (sockets (browser w2) = sockets (browser w1) /\
   status (state w2) = st_idle /\ chat w2 = chat w1) /\
  (sockets (browser u)
     = <[i := closing 1000 "Component unmount" ws]> (sockets (browser w)) /\
   wsRef (refs u) = None /\
   state u = state w).
Proof.
  intros Hr Hi Ho w1 w2 u.
  assert (E1 : sockets (browser w1)
     = <[i := closing 1000 "User stopped session" ws]> (sockets (browser w)) /\
   wsRef (refs w1) = None /\
   status (state w1) = st_idle /\
   log_contents w1 = log_contents w ++ [VStr "🛑 Session stopped"] /\
   chat w1 = chat w /\ error (state w1) = error (state w)).
  { subst w1. cbn [step]. unfold stopSession.
    destruct (stopHeartbeat_shape w) as (h & f & ->).
    cbn [refs wsRef set_heartbeatRef with_refs with_intervals with_browser].
    rewrite Hr. unfold log_contents, chat. cbn. rewrite Hi.
    rewrite map_app. cbn.
    destruct Ho as [Ho|Ho]; rewrite Ho; auto 10. }
  split; [exact E1|]. split.
  - destruct E1 as (_ & Hw & _). subst w2. cbn [step]. unfold stopSession.
    destruct (stopHeartbeat_shape w1) as (h & f & ->).
    cbn [refs wsRef set_heartbeatRef with_refs with_intervals with_browser].
    rewrite Hw. auto.
  - subst u. cbn [step]. unfold unmount.
    destruct (stopHeartbeat_shape w) as (h & f & ->).
    cbn [refs wsRef set_heartbeatRef with_refs with_intervals with_browser].
    rewrite Hr. cbn. rewrite Hi.
    destruct Ho as [Ho|Ho]; rewrite Ho; auto.
Qed.

Lemma unmount_effect w :
  state (unmount w) = state w /\
  wsRef (refs (unmount w)) = None /\
  timeouts (browser (unmount w)) = timeouts (browser w) /\
  fetches (browser (unmount w)) = fetches (browser w) /\
  List.length (sockets (browser (unmount w)))
    = List.length (sockets (browser w)) /\
  token (unmount w) = token w.
Proof.
  unfold unmount. destruct (stopHeartbeat_shape w) as (h & f & ->).
  cbn [refs wsRef set_heartbeatRef with_refs with_intervals with_browser].
  destruct (wsRef (refs w)) as [i|] eqn:E; cbn; [|auto 10].
  destruct (sockets (browser w) !! i); rewrite ?length_insert; auto 10.
Qed.

(** X10.  The unmount cleanup cancels neither a pending reconnect timer
    nor a file read in flight.  When the timer fires after the unmount,
    [connect] finds no live transport and opens a new socket. *)
Theorem unmount_does_not_cancel_reconnect w k t :
  timeouts (browser w) !! k = Some t ->
  let w1 := step Unmount w in
  let w2 := step (TimeoutFires k) w1 in
  (timeouts (browser w1) = timeouts (browser w) /\
   fetches (browser w1) = fetches (browser w)) /\
  (status (state w2) = st_connecting /\
   sockets (browser w2)
     = sockets (browser w1) ++ [fresh_socket w (reconnectTask t)] /\
   wsRef (refs w2) = Some (List.length (sockets (browser w1)))).
Proof.
  intros Hk w1 w2.
  destruct (unmount_effect w) as (Hst & Hws & Hto & Hfe & Hlen & Htok).
  change (unmount w) with w1 in Hst, Hws, Hto, Hfe, Hlen, Htok.
  split; [auto|].
  subst w2. cbn [step]. rewrite Hto, Hk.
  assert (Hl : live (with_timeouts (delete k) w1) = false).
  { unfold live. cbn [with_timeouts with_browser refs]. now rewrite Hws. }
  destruct (connect_not_live (reconnectTask t) _ Hl)
    as (Hs & Hr & _ & _ & Hc & _).
  rewrite Hs, Hr, Hc. cbn [with_timeouts with_browser browser sockets timeouts].
  repeat split. f_equal. f_equal. unfold fresh_socket.
  cbn [with_timeouts with_browser token]. now rewrite Htok.
Qed.

Lemma same_setup_stopHeartbeat w : same_setup w (stopHeartbeat w).
Proof.
  destruct (stopHeartbeat_shape w) as (h & f & ->). repeat split; reflexivity.
Qed.

Lemma same_setup_startHeartbeat w : same_setup w (startHeartbeat w).
Proof.
  destruct (startHeartbeat_shape w) as (h & n & f & ->).
  repeat split; reflexivity.
Qed.

Lemma same_setup_trans w1 w2 w3 :
  same_setup w1 w2 -> same_setup w2 w3 -> same_setup w1 w3.
Proof.
  intros (A1 & A2 & A3) (B1 & B2 & B3). repeat split; congruence.
Qed.

Ltac same_setup_atom :=
  first [ eapply same_setup_trans; eassumption
        | apply same_setup_stopHeartbeat | apply same_setup_startHeartbeat
        | repeat split; reflexivity ].

Lemma run_same_setup evs w : same_setup w (run evs w).
Proof.
  apply run_from_updates; intros; same_setup_atom.
Qed.

Lemma same_setup_connect task w : same_setup w (connect task w).
Proof. apply connect_respects; intros; same_setup_atom. Qed.

Lemma handshake_same w w' task :
  same_setup w w' -> handshake w' task = handshake w task.
Proof.
  intros (A & B & C). unfold handshake, modelProvider. now rewrite A, B, C.
Qed.

Lemma onclose_detaches task code reason x :
  wsRef (refs (onclose task code reason x)) = None /\
  sockets (browser (onclose task code reason x)) = sockets (browser x) /\
  chat (onclose task code reason x) = chat x /\
  token (onclose task code reason x) = token x /\
  (normal_close code = true ->
   status (state (onclose task code reason x)) = st_idle).
Proof.
  unfold onclose. cbv zeta.
  destruct (stopHeartbeat_shape (set_wsRef None x)) as (h & f & ->).
  destruct (normal_close code); [cbn; auto|].
  cbn [reconnectCount refs set_heartbeatRef with_refs with_intervals
       with_browser set_wsRef].
  destruct (_ <? _)%nat; cbn; repeat split; discriminate.
Qed.

Lemma onclose_retry task code reason x :
  normal_close code = false ->
  reconnectCount (refs x) < MAX_RECONNECTS ->
  timeouts (browser (onclose task code reason x))
  = timeouts (browser x) ++ [retry task] /\
  status (state (onclose task code reason x)) = status (state x) /\
  reconnectCount (refs (onclose task code reason x)) = S (reconnectCount (refs x)).
Proof.
  intros Hn Hlt. unfold onclose. cbv zeta. rewrite Hn.
  destruct (stopHeartbeat_shape (set_wsRef None x)) as (h & f & ->).
  cbn [reconnectCount refs set_heartbeatRef with_refs with_intervals
       with_browser set_wsRef].
  rewrite (proj2 (Nat.ltb_lt _ _) Hlt). cbn. auto.
Qed.


(** X12.  After an abnormal close with budget left, the status is left
    as it was (still [connected] if the socket had opened) while the
    reconnect timer is pending.  When the timer fires a new socket is
    created, and when that opens the handshake carries the task of the
    socket that closed: the initial task is sent to the engine again,
    while the chat is not touched, and the retry counter is back at
    zero. *)
Theorem reconnect_replays_the_initial_task w i ws code reason :
  sockets (browser w) !! i = Some ws ->
  WebSocket.readyState ws <> CLOSED ->
  normal_close code = false ->
  reconnectCount (refs w) < MAX_RECONNECTS ->
  let k := List.length (timeouts (browser w)) in
  let j := List.length (sockets (browser w)) in
  let w1 := step (WsClose i code reason) w in
  let w2 := step (TimeoutFires k) w1 in
  let w3 := step (WsOpen j) w2 in
  (status (state w1) = status (state w) /\
   timeouts (browser w1)
   = timeouts (browser w) ++ [retry (WebSocket.initialTask ws)]) /\
  (status (state w2) = st_connecting /\
   timeouts (browser w2) = timeouts (browser w) /\
   sockets (browser w2) !! j
   = Some (fresh_socket w (WebSocket.initialTask ws))) /\
  (sent_on w3 j
   = [JSON_stringify (handshake w (WebSocket.initialTask ws))] /\
   chat w3 = chat w /\
   reconnectCount (refs w3) = 0).
Proof.
  intros Hi Hc Hn Hlt k j w1 w2 w3.
  set (task := WebSocket.initialTask ws) in *.
  set (x := with_socket i (set_readyState CLOSED) w).
  assert (E1 : w1 = onclose task code reason x).
  { subst w1. cbn [step]. rewrite Hi.
    destruct (WebSocket.readyState ws); try reflexivity. congruence. }
  destruct (onclose_detaches task code reason x) as (Hw & Hs & Hch & Htok & _).
  destruct (onclose_retry task code reason x Hn Hlt) as (Hto & Hst & _).
  rewrite <- E1 in Hw, Hs, Hch, Htok, Hto, Hst.
  assert (S2 : same_setup w w2)
    by apply (run_same_setup [WsClose i code reason; TimeoutFires k] w).
  clearbody w1.
  assert (Hlen : List.length (sockets (browser w1)) = j).
  { rewrite Hs. subst x j. cbn. rewrite Hi. apply length_insert. }
  assert (Hl : live (with_timeouts (delete k) w1) = false).
  { unfold live. cbn [with_timeouts with_browser refs]. now rewrite Hw. }
  assert (E2 : w2 = connect task (with_timeouts (delete k) w1)).
  { subst w2. cbn [step]. rewrite Hto.
    change (timeouts (browser x)) with (timeouts (browser w)).
    subst k. now rewrite list_lookup_middle by reflexivity. }
  destruct (connect_not_live task _ Hl)
    as (Hs2 & _ & Hto2 & _ & Hst2 & _ & Hch2 & _ & _ & _).
  rewrite <- E2 in Hs2, Hto2, Hst2, Hch2.
  cbn [with_timeouts with_browser browser sockets timeouts] in Hs2, Hto2.
  assert (Hj2 : sockets (browser w2) !! j
                = Some (fresh_socket w task)).
  { rewrite Hs2, <- Hlen. rewrite list_lookup_middle by reflexivity.
    f_equal. unfold fresh_socket. cbn [with_timeouts with_browser token].
    rewrite Htok. reflexivity. }
  clearbody w2.
  destruct (step_WsOpen w2 j _ Hj2 eq_refl)
    as (S3 & _ & R3 & _ & _ & C3 & _).
  fold w3 in S3, R3, C3.
  repeat split; try assumption.
  - rewrite Hto2, Hto.
    change (timeouts (browser x)) with (timeouts (browser w)).
    subst k. rewrite delete_middle. apply app_nil_r.
  - unfold sent_on. rewrite S3.
    rewrite list_lookup_insert_eq by (eapply lookup_lt_Some; eassumption).
    cbn. f_equal. f_equal. apply handshake_same, S2.
  - rewrite C3, Hch2. exact Hch.
Qed.

(** ** Reading a file *)

(** The [try] block of [selectFile] after the fetch: it sets the
    fetched content, or throws before it has changed anything. *)
Lemma resume_body path o w :
  (exists c,
      selectFile_resume path o w
      = (Ok tt, setActiveFile (fun _ =>
                  Some {| ActiveFile.path := path; ActiveFile.content := c;
                          ActiveFile.loading := false |}) w)) \/
  (exists e,
      selectFile_resume path o w = selectFile_catch path e w).
Proof.
  unfold selectFile_resume, try_catch.
  destruct o as [m|status body].
  - right. exists (Error m). reflexivity.
  - destruct (negb (res_ok status)).
    + right. unfold bind, lift.
      destruct (get _ "detail") as [detail|e]; [|exists e; reflexivity].
      destruct (toString _) as [m|e]; [exists (Error m) | exists e]; reflexivity.
    + destruct body as [data|m]; [|right; exists (Error m); reflexivity].
      unfold bind, lift, upd.
      destruct (get data "content") as [content|e];
        [left; eexists; reflexivity | right; exists e; reflexivity].
Qed.

Lemma selectFile_catch_ok path e w : fst (selectFile_catch path e w) = Ok tt.
Proof. reflexivity. Qed.

(** X13.  [selectFile] never rejects: whatever goes wrong before or
    after the fetch (a session id that cannot be printed, a rejected
    request, an error status, a body that is no JSON or not an
    object) is caught inside. *)
Theorem selectFile_never_rejects path o w :
  fst (selectFile path w) = Ok tt /\
  fst (selectFile_resume path o w) = Ok tt.
Proof.
  split.
  - unfold selectFile. destruct (path =? ""); [reflexivity|].
    unfold bind, upd, try_catch, lift. cbn.
    destruct (toString _); reflexivity.
  - destruct (resume_body path o w) as [[c ->]|[e ->]]; reflexivity.
Qed.

Lemma loading_ok_selectFile path w :
  loading_ok w -> loading_ok (snd (selectFile path w)).
Proof.
  intros H. unfold selectFile. destruct (path =? "") eqn:Ep; [exact H|].
  unfold bind, upd, try_catch, lift. cbn.
  destruct (toString _) as [sid|e]; cbn.
  - intros f Hf _. inversion Hf; subst f; clear Hf. cbn.
    exists (List.length (fetches (browser w))), 
      {| endpoint := API_BASE +:+ "/api/files/read";
         session_id := sid; fpath := path |}.
    split; [|reflexivity]. now rewrite list_lookup_middle by reflexivity.
  - intros f Hf Hl. cbn in Hf. rewrite String.eqb_refl in Hf.
    inversion Hf; subst f. discriminate.
Qed.

Lemma loading_ok_settle k f0 o w :
  fetches (browser w) !! k = Some f0 ->
  loading_ok w ->
  loading_ok (snd (selectFile_resume (fpath f0) o (with_fetches (delete k) w))).
Proof.
  intros Hk H.
  destruct (resume_body (fpath f0) o (with_fetches (delete k) w))
    as [[c ->]|[e ->]].
  - intros f Hf Hl. cbn in Hf. inversion Hf; subst f. discriminate.
  - intros f Hf Hl. cbn in Hf, Hl |- *.
    destruct (activeFile (state w)) as [g|] eqn:Eg; [|discriminate].
    destruct (String.eqb_spec (ActiveFile.path g) (fpath f0)) as [Ep|Ep].
    + inversion Hf; subst f. discriminate.
    + inversion Hf; subst f; clear Hf.
      destruct (H g Eg Hl) as (k' & fe & Hk' & Hp).
      assert (k' <> k) by (intros ->; congruence).
      destruct (Nat.lt_ge_cases k' k) as [Hlt|Hge].
      * exists k', fe. split; [|exact Hp].
        now rewrite list_lookup_delete_lt.
      * exists (pred k'), fe. split; [|exact Hp].
        rewrite list_lookup_delete_ge by lia.
        replace (S (pred k')) with k' by lia. exact Hk'.
Qed.

Lemma loading_ok_stopHeartbeat w : loading_ok w -> loading_ok (stopHeartbeat w).
Proof. destruct (stopHeartbeat_shape w) as (h & f & ->). intros H. exact H. Qed.

Lemma loading_ok_startHeartbeat w :
  loading_ok w -> loading_ok (startHeartbeat w).
Proof.
  destruct (startHeartbeat_shape w) as (h & n & f & ->). intros H. exact H.
Qed.

Ltac loading_atom :=
  unfold preserves;
  first [ let H := fresh in intros H; exact H
        | apply loading_ok_stopHeartbeat | apply loading_ok_startHeartbeat ].

Lemma run_loading_ok evs w : loading_ok w -> loading_ok (run evs w).
Proof.
  apply (run_respects (preserves loading_ok)); intros;
    first [ eapply preserves_trans; eassumption
          | loading_atom
          | apply (open_from_updates (preserves loading_ok)); intros;
            first [ eapply preserves_trans; eassumption | loading_atom ]
          | unfold preserves; apply loading_ok_selectFile
          | unfold preserves; apply loading_ok_settle; assumption
          | apply (connect_respects (preserves loading_ok)); intros;
            first [ eapply preserves_trans; eassumption | loading_atom ] ].
Qed.

(** X14.  The editor shows a file as loading only while a read of that
    file is in flight, in every state the hook can reach: every way a
    read can end for the file on display ends the loading state. *)
Theorem loading_means_a_read_is_in_flight projectId token stored evs f :
  let w := run evs (initial_world projectId token stored) in
  activeFile (state w) = Some f ->
  ActiveFile.loading f = true ->
  exists k fe,
    fetches (browser w) !! k = Some fe /\ fpath fe = ActiveFile.path f.
Proof.
  intros w. apply run_loading_ok. intros g Hg. discriminate.
Qed.

(** X15.  A read that fails for the file on display leaves the reason in
    the editor and in the terminal: the content becomes the
    placeholder with the message of the error, loading ends, one line
    is logged; the session itself (status, chat, sockets) is not
    touched and the settled request is gone. *)
Theorem failed_read_is_reported_in_the_editor w k fe f o m :
  fetches (browser w) !! k = Some fe ->
  activeFile (state w) = Some f ->
  ActiveFile.path f = fpath fe ->
  read_fails o m ->
  let w' := step (FetchSettles k o) w in
  activeFile (state w')
  = Some {| ActiveFile.path := fpath fe;
            ActiveFile.content := VStr ("// Error loading file: " +:+ m);
            ActiveFile.loading := false |} /\
  log_contents w'
  = log_contents w
      ++ [VStr ("⚠️ Failed to read " +:+ fpath fe +:+ ": " +:+ m)] /\
  fetches (browser w') = delete k (fetches (browser w)) /\
  status (state w') = status (state w) /\
  chat w' = chat w /\
  sockets (browser w') = sockets (browser w).
Proof.
  intros Hk Hf Hp Hfail w'. subst w'. cbn [step]. rewrite Hk.
  assert (E : selectFile_resume (fpath fe) o (with_fetches (delete k) w)
              = selectFile_catch (fpath fe) (Error m)
                  (with_fetches (delete k) w)).
  { unfold selectFile_resume, try_catch.
    destruct Hfail as [m|status props d Hs Hd Hne|status props Hs Hd
                      |status m Hs|status m Hs]; cbn; rewrite ?Hs; cbn.
    - reflexivity.
    - rewrite Hd. unfold or_else. cbn.
      now rewrite (proj2 (String.eqb_neq _ _) Hne).
    - unfold or_else. rewrite Hd. reflexivity.
    - reflexivity.
    - reflexivity. }
  rewrite E. unfold log_contents, chat. cbn. rewrite Hf, Hp, String.eqb_refl.
  rewrite map_app. cbn. auto 10.
Qed.

(** ** Inbound frames *)

Lemma out_of_reach_trans w1 w2 w3 :
  out_of_reach w1 w2 -> out_of_reach w2 w3 -> out_of_reach w1 w3.
Proof.
  unfold out_of_reach. intros H1 H2.
  repeat match goal with H : _ /\ _ |- _ => destruct H end.
  repeat split; congruence.
Qed.

(** X16.  No frame the server sends, well formed or not, handled to the
    end or thrown half way, reaches the connection or the editor: the
    sockets, the reconnect timers, the keep-alive timer, the reads in
    flight, the retry counter and the file on display stay as they
    are. *)
Theorem frames_cannot_reach_the_connection raws w :
  out_of_reach w (dispatch_all raws w).
Proof.
  revert w. induction raws as [|raw raws IH]; intros w.
  - repeat split; reflexivity.
  - cbn [dispatch_all fold_left]. eapply out_of_reach_trans; [|apply IH].
    apply handleEvent_respects; intros;
      first [ eapply out_of_reach_trans; eassumption
            | repeat split; reflexivity ].
Qed.

(** *** One projection at a time *)

Lemma bind_lift_ok {A B} (a : A) (k : A -> M B) : bind (lift (Ok a)) k = k a.
Proof. reflexivity. Qed.

Section Projection.
Variables (T : Type) (proj : World -> T).








End Projection.


(** The frames that are no object: [null] throws at [msg.type], every
    other value has no [type] and falls through to the default. *)
Lemma handleEvent_no_object raw msg w :
  JSON_parse raw = Some msg ->
  (forall props, msg <> VObj props) ->
  handleEvent raw w
  = if nullish msg then (Throw TypeError, w)
    else (Ok tt, pushLog (VStr (JSON_stringify msg)) w).
Proof.
  intros Hp Hn. unfold handleEvent. rewrite Hp.
  destruct msg; try reflexivity. now destruct (Hn props).
Qed.




Lemma existsb_is_str_false t names name :
  existsb (is_str t) names = false -> In name names -> is_str t name = false.
Proof.
  intros H Hin. destruct (is_str t name) eqn:E; [|reflexivity].
  rewrite <- H. symmetry. apply existsb_exists. eauto.
Qed.

Ltac run_frame :=
  unfold bind, lift, upd, when, ret; cbn;
  repeat match goal with
         | |- context [if ?b then _ else _] => destruct b
         end;
  reflexivity.

(** X18.  A frame whose case converts no field to text and calls no
    method on one never throws: text that is no JSON, any JSON value
    other than [null], and the objects of type [log], [observation],
    [message], [complete], [pong], [ack] or of a type without a
    case. *)
Theorem frames_that_convert_nothing_never_throw raw w :
  JSON_parse raw <> Some VNull ->
  JSON_parse raw <> Some VUndefined ->
  converts (frame_type raw) = false ->
  fst (handleEvent raw w) = Ok tt.
Proof.
  intros Hnull Hundef Hc. unfold frame_type in Hc.
  destruct (JSON_parse raw) as [msg|] eqn:Hp.
  - destruct msg;
      try (rewrite (handleEvent_no_object raw _ w Hp) by discriminate;
           reflexivity);
      try congruence.
    unfold handleEvent. rewrite Hp. cbn [get]. rewrite bind_lift_ok.
    unfold converts in Hc.
    rewrite (existsb_is_str_false _ _ "file_tree" Hc) by (cbn; tauto).
    rewrite (existsb_is_str_false _ _ "file_change" Hc) by (cbn; tauto).
    rewrite (existsb_is_str_false _ _ "agent_event" Hc) by (cbn; tauto).
    rewrite (existsb_is_str_false _ _ "status" Hc) by (cbn; tauto).
    rewrite (existsb_is_str_false _ _ "error" Hc) by (cbn; tauto).
    run_frame.
  - unfold handleEvent. rewrite Hp. reflexivity.
Qed.

Lemma is_str_true t name : is_str t name = true -> t = VStr name.
Proof.
  destruct t; try discriminate. cbn. intros H.
  apply String.eqb_eq in H. now subst.
Qed.

(** X19.  Frames without a handler.  Text that is no JSON is logged as
    it is; a JSON value other than [null] whose type has no case (or
    that has no type at all) is logged as its JSON text; [pong] and
    [ack] leave no trace.  Nothing else changes. *)
Theorem frames_without_a_handler raw w :
  (JSON_parse raw = None ->
   handleEvent raw w = (Ok tt, pushLog (VStr raw) w)) /\
  (forall msg,
      JSON_parse raw = Some msg -> nullish msg = false ->
      handled (frame_type raw) = false ->
      handleEvent raw w = (Ok tt, pushLog (VStr (JSON_stringify msg)) w)) /\
  (is_str (frame_type raw) "pong" || is_str (frame_type raw) "ack" = true ->
   handleEvent raw w = (Ok tt, w)).
Proof.
  repeat split.
  - intros Hp. unfold handleEvent. now rewrite Hp.
  - intros msg Hp Hn Hh. unfold frame_type in Hh. rewrite Hp in Hh.
    destruct msg;
      try (rewrite (handleEvent_no_object raw _ w Hp) by discriminate;
           reflexivity);
      try discriminate.
    unfold handleEvent. rewrite Hp. cbn [get]. rewrite bind_lift_ok.
    unfold handled in Hh.
    rewrite (existsb_is_str_false _ _ "log" Hh) by (cbn; tauto).
    rewrite (existsb_is_str_false _ _ "observation" Hh) by (cbn; tauto).
    rewrite (existsb_is_str_false _ _ "message" Hh) by (cbn; tauto).
    rewrite (existsb_is_str_false _ _ "file_tree" Hh) by (cbn; tauto).
    rewrite (existsb_is_str_false _ _ "file_change" Hh) by (cbn; tauto).
    rewrite (existsb_is_str_false _ _ "agent_event" Hh) by (cbn; tauto).
    rewrite (existsb_is_str_false _ _ "status" Hh) by (cbn; tauto).
    rewrite (existsb_is_str_false _ _ "complete" Hh) by (cbn; tauto).
    rewrite (existsb_is_str_false _ _ "error" Hh) by (cbn; tauto).
    rewrite (existsb_is_str_false _ _ "pong" Hh) by (cbn; tauto).
    rewrite (existsb_is_str_false _ _ "ack" Hh) by (cbn; tauto).
    reflexivity.
  - intros H. unfold frame_type in H. unfold handleEvent.
    destruct (JSON_parse raw) as [[| | | | | |props]|]; try discriminate.
    cbn [get]. rewrite bind_lift_ok.
    apply orb_true_iff in H. destruct H as [H|H];
      apply is_str_true in H; rewrite H; reflexivity.
Qed.

Lemma join_strings sep names :
  join sep (map VStr names) = Ok (String.concat sep names).
Proof.
  induction names as [|x rest IH]; [reflexivity|].
  cbn [map join nullish toString res_bind String.concat].
  destruct rest as [|y rest]; [reflexivity|].
  cbn [map] in *. rewrite IH. reflexivity.
Qed.

(** X20.  A [file_change] frame with a list of files replaces the flat
    file list by that list, whatever was there and whether or not a
    path is given as well.  The terminal line names the path if there
    is one, else the files joined by a comma, else (for an empty list)
    [unknown]. *)
Theorem file_change_with_a_list_replaces_the_list raw props names label w :
  JSON_parse raw = Some (VObj props) ->
  own props "type" = VStr "file_change" ->
  own props "files" = VArr (map VStr names) ->
  (own props "path" = VStr label /\ label <> "" \/
   truthy (own props "path") = false /\
   label = str_or (String.concat ", " names) "unknown") ->
  let w' := snd (handleEvent raw w) in
  fst (handleEvent raw w) = Ok tt /\
  files (state w') = map VStr names /\
  log_contents w' = log_contents w ++ [VStr ("📝 File changed: " +:+ label)].
Proof.
  intros Hp Ht Hf Hl w'. subst w'. unfold handleEvent. rewrite Hp.
  cbn [get]. rewrite bind_lift_ok, Ht. cbn [is_str String.eqb Ascii.eqb Bool.eqb orb].
  rewrite !bind_lift_ok, Hf.
  unfold log_contents.
  destruct Hl as [[Hpath Hne]|[Hpath ->]].
  - rewrite Hpath. cbn [truthy]. rewrite (proj2 (String.eqb_neq _ _) Hne).
    cbn. rewrite map_app. auto.
  - rewrite Hpath. unfold bind, lift, upd, ret, call_join_opt.
    rewrite join_strings. cbn [res_bind]. unfold or_else, str_or. cbn [truthy].
    destruct (String.concat ", " names =? ""); cbn; rewrite map_app; auto.
Qed.


(** ** Ids are unique *)

Lemma ids_ok_pushLog c w : ids_ok w -> ids_ok (pushLog c w).
Proof.
  intros (ms & ls & Hm & Hl & Hn & Hle).
  exists ms, (ls ++ [S (idCounter (refs w))]). cbn. repeat split.
  - exact Hm.
  - rewrite map_app. apply Forall2_app; [exact Hl|].
    repeat constructor. eexists. reflexivity.
  - rewrite app_assoc. apply NoDup_app. repeat split; [exact Hn| |].
    + intros x Hx Hx'. apply list_elem_of_singleton in Hx'. subst x.
      rewrite Forall_forall in Hle. specialize (Hle _ Hx). lia.
    + apply NoDup_singleton.
  - rewrite app_assoc. apply Forall_app. split.
    + eapply Forall_impl; [exact Hle|]. cbn. intros; lia.
    + repeat constructor.
Qed.

Lemma ids_ok_pushMessage k c w : ids_ok w -> ids_ok (pushMessage k c w).
Proof.
  intros (ms & ls & Hm & Hl & Hn & Hle).
  exists (ms ++ [S (idCounter (refs w))]), ls. cbn.
  assert (P : (ms ++ [S (idCounter (refs w))]) ++ ls
              ≡ₚ (ms ++ ls) ++ [S (idCounter (refs w))]).
  { rewrite <- !app_assoc. apply Permutation_app_head, Permutation_app_comm. }
  repeat split.
  - rewrite map_app. apply Forall2_app; [exact Hm|].
    repeat constructor. eexists. reflexivity.
  - exact Hl.
  - rewrite P. apply NoDup_app. repeat split; [exact Hn| |].
    + intros x Hx Hx'. apply list_elem_of_singleton in Hx'. subst x.
      rewrite Forall_forall in Hle. specialize (Hle _ Hx). lia.
    + apply NoDup_singleton.
  - rewrite P. apply Forall_app. split.
    + eapply Forall_impl; [exact Hle|]. cbn. intros; lia.
    + repeat constructor.
Qed.

Lemma ids_ok_stopHeartbeat w : ids_ok w -> ids_ok (stopHeartbeat w).
Proof. destruct (stopHeartbeat_shape w) as (h & f & ->). intros H. exact H. Qed.

Lemma ids_ok_startHeartbeat w : ids_ok w -> ids_ok (startHeartbeat w).
Proof.
  destruct (startHeartbeat_shape w) as (h & n & f & ->). intros H. exact H.
Qed.

Ltac ids_atom :=
  unfold preserves;
  first [ apply ids_ok_pushLog | apply ids_ok_pushMessage
        | apply ids_ok_stopHeartbeat | apply ids_ok_startHeartbeat
        | let H := fresh in intros H; exact H ].

Lemma run_ids_ok evs w : ids_ok w -> ids_ok (run evs w).
Proof.
  apply (run_from_updates (preserves ids_ok)); intros;
    first [ eapply preserves_trans; eassumption | ids_atom ].
Qed.

(** X22.  No two entries of the chat and the terminal share an id, in
    every state the hook can reach, whatever the clock returns (two
    entries made in the same millisecond differ in the counter):
    the keys the page gives its rows are unique. *)
Theorem ids_are_unique projectId token stored evs :
  let w := run evs (initial_world projectId token stored) in
  NoDup (ids w).
Proof.
  intros w. unfold ids.
  assert (H : ids_ok w).
  { apply run_ids_ok. exists [], []. cbn. repeat split; constructor. }
  destruct H as (ms & ls & Hm & Hl & Hn & _).
  apply (stamped_NoDup _ (ms ++ ls)); [|exact Hn].
  apply Forall2_app; assumption.
Qed.

(** ** Starting without a task *)

Lemma step_WsOpen_logs w i ws :
  sockets (browser w) !! i = Some ws ->
  WebSocket.readyState ws = CONNECTING ->
  task_truthy (WebSocket.initialTask ws) = false ->
  log_contents (step (WsOpen i) w) = log_contents w ++ [VStr "🟢 Connected"].
Proof.
  intros Hi Hc Ht. cbn [step]. rewrite Hi, Hc. unfold onopen. rewrite Ht.
  match goal with
  | |- context [startHeartbeat ?x] =>
      destruct (startHeartbeat_shape x) as (h & n & f & ->)
  end.
  unfold log_contents. cbn. now rewrite map_app.
Qed.

(** X23.  [startSession] without a task (left out, or the empty
    string).  On an open socket it does nothing.  Otherwise it
    connects without adding anything to the chat; the handshake has
    the empty string as its task and no "task sent" line is logged. *)
Theorem startSession_without_a_task w task :
  task_truthy task = false ->
  (wsRef_open w = true -> step (Call_startSession task) w = w) /\
  (live w = false ->
   let n := List.length (sockets (browser w)) in
   let w1 := step (Call_startSession task) w in
   let w2 := step (WsOpen n) w1 in
   chat w1 = chat w /\
   sockets (browser w1) = sockets (browser w) ++ [fresh_socket w task] /\
   sent_on w2 n = [JSON_stringify (handshake w task)] /\
   get (handshake w task) "task" = Ok (VStr "") /\
   log_contents w2 = log_contents w1 ++ [VStr "🟢 Connected"]).
Proof.
  intros Ht. split.
  - intros Ho. cbn [step]. unfold startSession. now rewrite Ho, Ht.
  - intros Hl n w1 w2.
    assert (Ho : wsRef_open w = false).
    { unfold live in Hl. unfold wsRef_open.
      destruct (wsRef (refs w)); [|reflexivity].
      now apply orb_false_elim in Hl. }
    assert (E1 : w1 = connect task w).
    { subst w1. cbn [step]. unfold startSession. now rewrite Ho, Ht. }
    destruct (connect_not_live task w Hl)
      as (Hs & _ & _ & _ & _ & _ & Hch & _ & Hp & Htok).
    rewrite <- E1 in Hs, Hch, Hp, Htok.
    assert (Hmp : storedModelProvider (browser w1)
                  = storedModelProvider (browser w)).
    { rewrite E1. unfold connect. rewrite Hl. reflexivity. }
    clearbody w1.
    assert (Hn : sockets (browser w1) !! n = Some (fresh_socket w task)).
    { rewrite Hs. subst n. now rewrite list_lookup_middle by reflexivity. }
    destruct (step_WsOpen w1 n _ Hn eq_refl) as (S2 & _).
    fold w2 in S2.
    split; [exact Hch|]. split; [exact Hs|]. split; [|split].
    + unfold sent_on. rewrite S2.
      rewrite list_lookup_insert_eq by (eapply lookup_lt_Some; eassumption).
      cbn. f_equal. f_equal. unfold handshake, modelProvider.
      now rewrite Hp, Htok, Hmp.
    + unfold handshake. cbn. unfold str_or.
      destruct task as [s|]; cbn in *; [|reflexivity].
      destruct (s =? "") eqn:E; [|discriminate].
      apply String.eqb_eq in E. now subst.
    + apply (step_WsOpen_logs w1 n _ Hn eq_refl Ht).
Qed.

(** ** The order of the frames on a socket *)

Lemma socket_in_order_same w w' ws :
  same_setup w w' -> socket_in_order w ws -> socket_in_order w' ws.
Proof.
  intros S. unfold socket_in_order, handshake_first.
  now rewrite (handshake_same w w' _ S).
Qed.

Lemma protocol_ok_same w w' :
  sockets (browser w') = sockets (browser w) -> same_setup w w' ->
  protocol_ok w -> protocol_ok w'.
Proof.
  intros E S H. unfold protocol_ok. rewrite E.
  eapply Forall_impl; [exact H|]. intros ws. apply socket_in_order_same, S.
Qed.

Lemma protocol_ok_socket i f w :
  (forall ws, socket_in_order w ws -> socket_in_order w (f ws)) ->
  protocol_ok w -> protocol_ok (with_socket i f w).
Proof.
  intros Hf H.
  assert (G : Forall (socket_in_order w) (sockets (browser (with_socket i f w)))).
  { cbn. destruct (sockets (browser w) !! i) as [ws|] eqn:Hi; [|exact H].
    apply Forall_insert; [exact H|]. apply Hf.
    unfold protocol_ok in H. rewrite Forall_forall in H. apply H.
    eapply list_elem_of_lookup_2. eassumption. }
  exact G.
Qed.

Lemma protocol_ok_send i v w :
  Follow_up v -> protocol_ok w -> protocol_ok (ws_send i (JSON_stringify v) w).
Proof.
  intros Hv. apply protocol_ok_socket. intros ws.
  unfold socket_in_order, handshake_first.
  destruct (WebSocket.readyState ws) eqn:E; cbn; rewrite ?E; try tauto.
  intros (vs & Hs & Hf). exists (vs ++ [v]). split.
  - rewrite Hs, map_app. reflexivity.
  - apply Forall_app. split; [exact Hf | repeat constructor; exact Hv].
Qed.

Lemma protocol_ok_close i code reason w :
  protocol_ok w -> protocol_ok (ws_close i code reason w).
Proof.
  apply protocol_ok_socket. intros ws.
  unfold socket_in_order, handshake_first.
  destruct (WebSocket.readyState ws) eqn:E; cbn; rewrite ?E; tauto.
Qed.

Lemma protocol_ok_closed i w :
  protocol_ok w -> protocol_ok (with_socket i (set_readyState CLOSED) w).
Proof.
  apply protocol_ok_socket. intros ws.
  unfold socket_in_order, handshake_first.
  destruct (WebSocket.readyState ws) eqn:E; cbn; tauto.
Qed.

Lemma protocol_ok_connect task w :
  protocol_ok w -> protocol_ok (connect task w).
Proof.
  intros H. destruct (live w) eqn:L; [now rewrite connect_live|].
  destruct (connect_not_live task w L) as (E & _).
  unfold protocol_ok. rewrite E. apply Forall_app. split.
  - eapply Forall_impl; [exact H|]. intros ws.
    apply socket_in_order_same, same_setup_connect.
  - repeat constructor.
Qed.

Lemma protocol_ok_open i ws w :
  sockets (browser w) !! i = Some ws ->
  WebSocket.readyState ws = CONNECTING ->
  protocol_ok w ->
  protocol_ok (onopen i (WebSocket.initialTask ws)
                 (with_socket i (set_readyState OPEN) w)).
Proof.
  intros Hi Hc H.
  pose proof (step_WsOpen w i ws Hi Hc) as (E & _).
  pose proof (run_same_setup [WsOpen i] w) as S.
  cbn [run fold_left step] in E, S. rewrite Hi, Hc in E, S.
  unfold protocol_ok. rewrite E.
  assert (Hws : socket_in_order w ws).
  { unfold protocol_ok in H. rewrite Forall_forall in H. apply H.
    eapply list_elem_of_lookup_2. eassumption. }
  apply Forall_insert.
  - eapply Forall_impl; [exact H|]. intros ws'.
    apply socket_in_order_same, S.
  - apply (socket_in_order_same w _ _ S).
    unfold socket_in_order in *. rewrite Hc in Hws.
    unfold handshake_first. cbn.
    exists []. rewrite Hws. split; [reflexivity | constructor].
Qed.

Lemma protocol_ok_stopHeartbeat w : protocol_ok w -> protocol_ok (stopHeartbeat w).
Proof.
  apply protocol_ok_same.
  - destruct (stopHeartbeat_shape w) as (h & f & ->). reflexivity.
  - apply same_setup_stopHeartbeat.
Qed.

Ltac protocol_atom :=
  unfold preserves;
  first [ apply protocol_ok_stopHeartbeat
        | apply protocol_ok_connect
        | apply protocol_ok_open; assumption
        | apply protocol_ok_send; assumption
        | apply protocol_ok_close
        | apply protocol_ok_closed
        | apply protocol_ok_same; [reflexivity | repeat split; reflexivity] ].

Lemma protocol_ok_selectFile path w :
  protocol_ok w -> protocol_ok (snd (selectFile path w)).
Proof.
  apply (selectFile_respects (preserves protocol_ok)); intros;
    first [ eapply preserves_trans; eassumption
          | let H := fresh in intros H; exact H
          | protocol_atom ].
Qed.

Lemma protocol_ok_settle k f o w :
  protocol_ok w ->
  protocol_ok (snd (selectFile_resume (fpath f) o (with_fetches (delete k) w))).
Proof.
  intros H.
  assert (H' : protocol_ok (with_fetches (delete k) w)) by exact H.
  revert H'.
  apply (selectFile_resume_respects (preserves protocol_ok)); intros;
    first [ eapply preserves_trans; eassumption
          | let H := fresh in intros H; exact H ].
Qed.

Lemma run_protocol_ok evs w : protocol_ok w -> protocol_ok (run evs w).
Proof.
  apply (run_respects (preserves protocol_ok)); intros;
    first [ eapply preserves_trans; eassumption
          | let H := fresh in intros H; exact H
          | unfold preserves; apply protocol_ok_selectFile
          | unfold preserves; apply protocol_ok_settle
          | protocol_atom ].
Qed.

(** X24.  On every socket the handshake comes first and comes once:
    in every state the hook can reach, a socket either has sent
    nothing (and is not open), or it is past connecting, its first
    frame is the handshake with the task the socket was created with,
    and every later frame is a heartbeat or a user action. *)
Theorem the_handshake_comes_first projectId token stored evs i ws :
  let w0 := initial_world projectId token stored in
  sockets (browser (run evs w0)) !! i = Some ws ->
  (WebSocket.sent ws = [] /\ WebSocket.readyState ws <> OPEN) \/
  (exists vs,
      WebSocket.sent ws
      = JSON_stringify (handshake w0 (WebSocket.initialTask ws))
          :: map JSON_stringify vs /\
      Forall Follow_up vs /\
      WebSocket.readyState ws <> CONNECTING).
Proof.
  intros w0 Hi.
  assert (H : protocol_ok (run evs w0))
    by (apply run_protocol_ok; constructor).
  unfold protocol_ok in H. rewrite Forall_forall in H.
  assert (Hws : socket_in_order w0 ws).
  { apply (socket_in_order_same (run evs w0)).
    - pose proof (run_same_setup evs w0) as (A & B & C).
      repeat split; symmetry; assumption.
    - apply H. eapply list_elem_of_lookup_2. eassumption. }
  unfold socket_in_order, handshake_first in Hws.
  destruct (WebSocket.readyState ws) eqn:E.
  - left. split; [exact Hws | discriminate].
  - right. destruct Hws as (vs & Hs & Hf). exists vs.
    repeat split; try assumption. discriminate.
  - destruct Hws as [Hs|(vs & Hs & Hf)].
    + left. split; [exact Hs | discriminate].
    + right. exists vs. repeat split; try assumption. discriminate.
  - destruct Hws as [Hs|(vs & Hs & Hf)].
    + left. split; [exact Hs | discriminate].
    + right. exists vs. repeat split; try assumption. discriminate.
Qed.

(** ** Agent events, and a warning that is never logged *)

(** X25.  An [agent_event] frame whose fields are text fans out: the
    content goes to the chat exactly when the kind of the event (its
    [eventType], else its [event]) has [Message] or [Think] in it, and
    then also when the content is empty; the terminal gets the command
    after a dollar sign, if there is one, and then the content, if
    there is one.  Without an attached file list the files stay as
    they are. *)
Theorem agent_event_fans_out_to_chat_and_terminal
    raw props kind content command w :
  JSON_parse raw = Some (VObj props) ->
  own props "type" = VStr "agent_event" ->
  or_else (own props "eventType") (or_else (own props "event") (VStr ""))
  = VStr kind ->
  or_else (own props "content") (VStr "") = VStr content ->
  own props "command" = VStr command ->
  isArray (own props "fileTree") = false ->
  let w' := snd (handleEvent raw w) in
  fst (handleEvent raw w) = Ok tt /\
  chat w'
  = chat w ++ (if str_includes kind "Message" || str_includes kind "Think"
               then [(agent, VStr content)] else []) /\
  log_contents w'
  = log_contents w
      ++ (if command =? "" then [] else [VStr ("$ " +:+ command)])
      ++ (if content =? "" then [] else [VStr content]) /\
  files (state w') = files (state w).
Proof.
  intros Hp Ht Hk Hc Hcmd Hft w'. subst w'. unfold handleEvent. rewrite Hp.
  cbn [get]. rewrite bind_lift_ok, Ht.
  cbn [is_str String.eqb Ascii.eqb Bool.eqb orb].
  rewrite !bind_lift_ok, Hc, Hk, Hcmd. cbn [call_includes].
  rewrite bind_lift_ok. cbn [truthy toString].
  unfold chat, log_contents.
  destruct (own props "fileTree"); try discriminate;
    destruct (str_includes kind "Message"); cbn [orb];
    rewrite ?bind_lift_ok;
    destruct (str_includes kind "Think");
    destruct (command =? ""); destruct (content =? "");
    cbn; rewrite ?map_app, ?app_nil_r; cbn; rewrite <- ?app_assoc; auto.
Qed.


Lemma pushLog_sockets c w :
  sockets (browser (pushLog c w)) = sockets (browser w).
Proof. reflexivity. Qed.



End More.

(** ** The further statements on concrete runs *)

Ltac by_running := vm_compute; first [reflexivity | discriminate | lia].




(** An [error] frame on the open socket, then a [status] frame and a
    stop: the badge still shows the error. *)
Lemma error_is_shown_witness :
  let w := snd (handleEvent (rt := sample_runtime)
                  (print (frame_error "OOM")) w_open) in
  let w' := run (rt := sample_runtime)
              [WsMessage 0 (print frame_status_ready); Call_stopSession] w in
  ConnectionStatus_label (status (state w')) (error (state w')) = VStr "OOM".
Proof.
  intros w w'.
  destruct (error_is_shown_until_the_next_connection (rt := sample_runtime)
              [WsMessage 0 (print frame_status_ready); Call_stopSession] w
              ltac:(by_running) ltac:(by_running)) as (_ & H).
  vm_compute in H |- *. exact H.
Defined.

(** Stopping, and unmounting, [w_open]. *)
Lemma stop_and_unmount_witness :
  let w1 := step (rt := sample_runtime) Call_stopSession w_open in
  let u := step (rt := sample_runtime) Unmount w_open in
  sockets (browser w1) = [closing 1000 "User stopped session" ws_first_open] /\
  status (state w1) = st_idle /\
  sockets (browser u) = [closing 1000 "Component unmount" ws_first_open] /\
  status (state u) = st_connected.
Proof.
  intros w1 u.
  destruct (stop_and_unmount_close_the_socket (rt := sample_runtime)
              w_open 0 ws_first_open ltac:(by_running) ltac:(by_running)
              ltac:(left; by_running))
    as ((H1 & _ & H2 & _) & _ & (H3 & _ & H4)).
  apply (f_equal status) in H4.
  split; [|split; [|split]];
    [ vm_compute in H1 |- *; exact H1 | vm_compute in H2 |- *; exact H2
    | vm_compute in H3 |- *; exact H3 | vm_compute in H4 |- *; exact H4 ].
Defined.

(** Unmounting [w_backoff]: the retry timer still opens a socket. *)
Lemma unmount_does_not_cancel_reconnect_witness :
  let w1 := step (rt := sample_runtime) Unmount w_backoff in
  let w2 := step (rt := sample_runtime) (TimeoutFires 0) w1 in
  timeouts (browser w1) = [retry (Some "fix the bug")] /\
  status (state w2) = st_connecting /\
  wsRef (refs w2) = Some 1.
Proof.
  intros w1 w2.
  destruct (unmount_does_not_cancel_reconnect (rt := sample_runtime)
              w_backoff 0 (retry (Some "fix the bug")) ltac:(by_running))
    as ((H1 & _) & H2 & _ & H3).
  split; [|split];
    [ vm_compute in H1 |- *; exact H1 | vm_compute in H2 |- *; exact H2
    | vm_compute in H3 |- *; exact H3 ].
Defined.


(** The open socket of [w_open] is lost (code 1006); the retry sends
    the task again. *)
Lemma reconnect_replays_witness :
  let w1 := step (rt := sample_runtime) (WsClose 0 1006 "") w_open in
  let w2 := step (rt := sample_runtime) (TimeoutFires 0) w1 in
  let w3 := step (rt := sample_runtime) (WsOpen 1) w2 in
  status (state w1) = st_connected /\
  sent_on w3 1 = [print (handshake w0 (Some "fix the bug"))] /\
  chat w3 = [(user, VStr "fix the bug")].
Proof.
  intros w1 w2 w3.
  destruct (reconnect_replays_the_initial_task (rt := sample_runtime)
              w_open 0 ws_first_open 1006 ""
              ltac:(by_running) ltac:(by_running) ltac:(by_running)
              ltac:(by_running))
    as ((H1 & _) & _ & (H2 & H3 & _)).
  split; [|split];
    [ vm_compute in H1 |- *; exact H1 | vm_compute in H2 |- *; exact H2
    | vm_compute in H3 |- *; exact H3 ].
Defined.

(** [w_reading] shows a.txt as loading, and its read is in flight. *)
Lemma loading_witness :
  exists k fe,
    fetches (browser w_reading) !! k = Some fe /\ fpath fe = "a.txt".
Proof.
  exact (loading_means_a_read_is_in_flight (rt := sample_runtime)
           "proj-1" "" None [Call_selectFile "a.txt"]
           {| ActiveFile.path := "a.txt"; ActiveFile.content := VStr "";
              ActiveFile.loading := true |}
           ltac:(by_running) ltac:(by_running)).
Defined.

(** The read of a.txt in [w_reading] comes back with 404 and a
    detail. *)
Lemma failed_read_witness :
  let o := Response 404 (inl (VObj [("detail", VStr "File not found")])) in
  let w' := step (rt := sample_runtime) (FetchSettles 0 o) w_reading in
  activeFile (state w')
  = Some {| ActiveFile.path := "a.txt";
            ActiveFile.content := VStr "// Error loading file: File not found";
            ActiveFile.loading := false |} /\
  fetches (browser w') = [].
Proof.
  intros o w'.
  destruct (failed_read_is_reported_in_the_editor (rt := sample_runtime)
              w_reading 0
              {| endpoint := "http://localhost:8000/api/files/read";
                 session_id := ""; fpath := "a.txt" |}
              {| ActiveFile.path := "a.txt"; ActiveFile.content := VStr "";
                 ActiveFile.loading := true |}
              o "File not found"
              ltac:(by_running) ltac:(by_running) ltac:(by_running)
              (fails_detail 404 [("detail", VStr "File not found")]
                 "File not found" ltac:(by_running) ltac:(by_running)
                 ltac:(discriminate)))
    as (H1 & _ & H2 & _).
  split; [vm_compute in H1 |- *; exact H1 | vm_compute in H2 |- *; exact H2].
Defined.

(** The observation frame of the samples. *)
Lemma never_throw_witness :
  fst (handleEvent (rt := sample_runtime) (print frame_observation) w0)
  = Ok tt.
Proof.
  exact (frames_that_convert_nothing_never_throw (rt := sample_runtime)
           (print frame_observation) w0
           ltac:(by_running) ltac:(by_running) ltac:(by_running)).
Defined.

(** A list of two files and no path. *)
Lemma file_change_with_a_list_witness :
  let w' := snd (handleEvent (rt := listing_runtime)
                   (print frame_file_list) w0) in
  files (state w') = [VStr "a.py"; VStr "b.py"] /\
  log_contents w' = [VStr "📝 File changed: a.py, b.py"].
Proof.
  intros w'.
  destruct (file_change_with_a_list_replaces_the_list (rt := listing_runtime)
              (print frame_file_list)
              [("type", VStr "file_change");
               ("files", VArr [VStr "a.py"; VStr "b.py"])]
              ["a.py"; "b.py"] "a.py, b.py" w0
              ltac:(by_running) ltac:(by_running) ltac:(by_running)
              ltac:(right; split; by_running))
    as (_ & H1 & H2).
  split; [vm_compute in H1 |- *; exact H1 | vm_compute in H2 |- *; exact H2].
Defined.


Lemma startSession_without_a_task_witness :
  let w1 := step (rt := sample_runtime) (Call_startSession None) w0 in
  let w2 := step (rt := sample_runtime) (WsOpen 0) w1 in
  chat w1 = [] /\
  sent_on w2 0 = [print (handshake w0 None)] /\
  log_contents w2
  = [VStr "🔌 Connecting to AI Engine…"; VStr "🟢 Connected"].
Proof.
  intros w1 w2.
  destruct (startSession_without_a_task (rt := sample_runtime) w0 None
              ltac:(vm_compute; reflexivity)) as (_ & H).
  destruct (H ltac:(vm_compute; reflexivity)) as (H1 & _ & H2 & _ & H3).
  split; [|split];
    [ vm_compute in H1 |- *; exact H1 | vm_compute in H2 |- *; exact H2
    | vm_compute in H3 |- *; exact H3 ].
Defined.

(** The socket of [w_open]. *)
Lemma the_handshake_comes_first_witness :
  (WebSocket.sent ws_first_open = [] /\
   WebSocket.readyState ws_first_open <> OPEN) \/
  (exists vs,
      WebSocket.sent ws_first_open
      = print (handshake w0 (Some "fix the bug")) :: map print vs /\
      Forall Follow_up vs /\
      WebSocket.readyState ws_first_open <> CONNECTING).
Proof.
  exact (the_handshake_comes_first (rt := sample_runtime) "proj-1" "" None
           [Call_startSession (Some "fix the bug"); WsOpen 0] 0 ws_first_open
           ltac:(vm_compute; reflexivity)).
Defined.

(** The agent event of the samples. *)
Lemma agent_event_witness :
  let w' := snd (handleEvent (rt := sample_runtime)
                   (print frame_agent_event) w0) in
  chat w' = [(agent, VStr "Installing deps")] /\
  log_contents w' = [VStr "$ npm install"; VStr "Installing deps"].
Proof.
  intros w'.
  destruct (agent_event_fans_out_to_chat_and_terminal (rt := sample_runtime)
              (print frame_agent_event)
              [("type", VStr "agent_event");
               ("eventType", VStr "AgentMessageAction");
               ("content", VStr "Installing deps");
               ("command", VStr "npm install")]
              "AgentMessageAction" "Installing deps" "npm install" w0
              ltac:(vm_compute; reflexivity) ltac:(vm_compute; reflexivity)
              ltac:(vm_compute; reflexivity) ltac:(vm_compute; reflexivity)
              ltac:(vm_compute; reflexivity) ltac:(vm_compute; reflexivity))
    as (_ & H1 & H2 & _).
  split; [vm_compute in H1 |- *; exact H1 | vm_compute in H2 |- *; exact H2].
Defined.
